(** * Transcripto: the streaming transcription pipeline of [transcription_app.py]

    A shallow embedding of [TranscriptionApp]: the session state, the two
    worker threads ([_record_audio], [_process_audio]) as small-step machines
    interleaved with the control routes ([/api/start], [/api/stop]), and the
    exporter ([format_transcript]).

    The state is one record, shared by the routes and the threads.  A thread
    is a program point with its local variables; a step moves one thread, or
    serves one request.  What the environment decides comes with the label
    of the step: the answer of the audio device, the time of the clock, the
    model [whisper.load_model] returns.  A route runs in one step, and so
    does one pass of the capture loop (the read, the count and the put) and
    one pass of the worker loop (the get and the body). *)

From Stdlib Require Import ZArith NArith List String Ascii Lia Bool PrimFloat Sorted.
From Stdlib Require DecimalString.
From stdpp Require Import base option list gmap strings.

Local Open Scope Z_scope.

(** ** Python values *)

(** A Python [str] is a sequence of Unicode code points. *)
Abbreviation pystr := (list N).

Definition lit (s : string) : pystr :=
  map N_of_ascii (list_ascii_of_string s).

(** The exceptions the application can meet. *)
Inductive exn : Type :=
  | KeyError (key : string)
  | TypeError
  | ValueError
  | AttributeError
  | UnboundLocalError (name : string)
  | OSError (errno : Z)
  | RuntimeError (msg : pystr).

(** Result of a computation that may raise. *)
Inductive res (A : Type) : Type :=
  | Ok (a : A)
  | Raise (e : exn).
Arguments Ok {A} a.
Arguments Raise {A} e.

#[global] Instance res_ret : MRet res := fun A a => Ok a.

#[global] Instance res_bind : MBind res := fun A B k r =>
  match r with
  | Ok a => k a
  | Raise e => Raise e
  end.

(** The values stored in the dictionaries of the application. *)
Inductive pyval : Type :=
  | VNone
  | VStr (s : pystr)
  | VFloat (f : float)
  | VMethod (name : string).

(** A [dict] with string keys. *)
Abbreviation pydict := (gmap string pyval).

(** [d[k]] *)
Definition getitem (d : pydict) (k : string) : res pyval :=
  match d !! k with
  | Some v => Ok v
  | None => Raise (KeyError k)
  end.

(** [d.get(k, dflt)]: the default is used only when the key is absent. *)
Definition dict_get (d : pydict) (k : string) (dflt : pyval) : pyval :=
  match d !! k with
  | Some v => v
  | None => dflt
  end.

(** ** [str.strip()] *)

(** [str.isspace] on one code point (the Unicode whitespace of CPython). *)
Definition is_space (c : N) : bool :=
  ((9 <=? c) && (c <=? 13) || (28 <=? c) && (c <=? 32)
   || (c =? 133) || (c =? 160) || (c =? 5760)
   || (8192 <=? c) && (c <=? 8202)
   || (c =? 8232) || (c =? 8233) || (c =? 8239) || (c =? 8287)
   || (c =? 12288))%N.

Fixpoint lstrip (s : pystr) : pystr :=
  match s with
  | c :: s' => if is_space c then lstrip s' else s
  | [] => []
  end.

Definition rstrip (s : pystr) : pystr := rev (lstrip (rev s)).

Definition strip (s : pystr) : pystr := rstrip (lstrip s).

(** Truth value of a [str]: non-empty. *)
Definition str_truthy (s : pystr) : bool :=
  match s with
  | [] => false
  | _ :: _ => true
  end.

(** ** Decimal formatting *)

Definition digit (d : Z) : N := (48 + Z.to_N d)%N.

(** The [w] low decimal digits of [n], most significant first: what
    ["%0wd"] prints for [0 <= n < 10^w]. *)
Fixpoint fixed_dec (w : nat) (n : Z) : pystr :=
  match w with
  | O => []
  | S w' => fixed_dec w' (n / 10) ++ [digit (n mod 10)]
  end.

(** [str(n)] for an [int]. *)
Definition str_of_int (n : Z) : pystr :=
  lit (DecimalString.NilZero.string_of_int (Z.to_int n)).

Definition digit_val (c : N) : option Z :=
  if ((48 <=? c) && (c <=? 57))%N then Some (Z.of_N c - 48) else None.

(** Reads exactly [w] decimal digits off the front of [s]. *)
Fixpoint parse_digits (w : nat) (acc : Z) (s : pystr) : option (Z * pystr) :=
  match w with
  | O => Some (acc, s)
  | S w' =>
      match s with
      | c :: s' =>
          match digit_val c with
          | Some d => parse_digits w' (acc * 10 + d) s'
          | None => None
          end
      | [] => None
      end
  end.

Definition expect (c : N) (s : pystr) : option pystr :=
  match s with
  | c' :: s' => if (c =? c')%N then Some s' else None
  | [] => None
  end.

(** ** [datetime] *)

(** A naive [datetime] (no [tzinfo]), as [datetime.now()] returns it. *)
Record datetime : Type := mkDatetime {
  year : Z; month : Z; day : Z;
  hour : Z; minute : Z; second : Z; microsecond : Z
}.

Definition is_leap (y : Z) : bool :=
  (y mod 4 =? 0) && (negb (y mod 100 =? 0) || (y mod 400 =? 0)).

Definition days_in_month (y m : Z) : Z :=
  if m =? 2 then (if is_leap y then 29 else 28)
  else if (m =? 4) || (m =? 6) || (m =? 9) || (m =? 11) then 30
  else 31.

(** The class invariant of [datetime] objects. *)
Definition valid_datetime (d : datetime) : bool :=
  (1 <=? year d) && (year d <=? 9999)
  && (1 <=? month d) && (month d <=? 12)
  && (1 <=? day d) && (day d <=? days_in_month (year d) (month d))
  && (0 <=? hour d) && (hour d <=? 23)
  && (0 <=? minute d) && (minute d <=? 59)
  && (0 <=? second d) && (second d <=? 59)
  && (0 <=? microsecond d) && (microsecond d <=? 999999).

(** [d.isoformat()]: ["%04d-%02d-%02dT%02d:%02d:%02d"], followed by
    [".%06d"] when the microsecond is not zero.  The fields of a datetime
    object are within their ranges, so each prints at its fixed width. *)
Definition isoformat (d : datetime) : pystr :=
  fixed_dec 4 (year d) ++ lit "-" ++ fixed_dec 2 (month d) ++ lit "-"
  ++ fixed_dec 2 (day d) ++ lit "T"
  ++ fixed_dec 2 (hour d) ++ lit ":" ++ fixed_dec 2 (minute d) ++ lit ":"
  ++ fixed_dec 2 (second d)
  ++ (if microsecond d =? 0 then [] else lit "." ++ fixed_dec 6 (microsecond d)).

(** [d.strftime('%H:%M:%S')] *)
Definition strftime_HMS (d : datetime) : pystr :=
  fixed_dec 2 (hour d) ++ lit ":" ++ fixed_dec 2 (minute d) ++ lit ":"
  ++ fixed_dec 2 (second d).

(** [datetime.fromisoformat(s)] on the strings [isoformat] produces for a
    naive datetime, ["YYYY-MM-DDTHH:MM:SS"] with an optional [".ffffff"];
    anything else is a [ValueError]. *)
Definition parse_iso (s : pystr) : option datetime :=
  '(y, s) ← parse_digits 4 0 s;
  s ← expect 45 s;
  '(mo, s) ← parse_digits 2 0 s;
  s ← expect 45 s;
  '(d, s) ← parse_digits 2 0 s;
  s ← expect 84 s;
  '(h, s) ← parse_digits 2 0 s;
  s ← expect 58 s;
  '(mi, s) ← parse_digits 2 0 s;
  s ← expect 58 s;
  '(se, s) ← parse_digits 2 0 s;
  '(us, s) ← match s with
              | [] => Some (0, [])
              | _ => s ← expect 46 s; parse_digits 6 0 s
              end;
  match s with
  | [] =>
      let dt := mkDatetime y mo d h mi se us in
      if valid_datetime dt then Some dt else None
  | _ => None
  end.

Definition fromisoformat (v : pyval) : res datetime :=
  match v with
  | VStr s =>
      match parse_iso s with
      | Some d => Ok d
      | None => Raise ValueError
      end
  | _ => Raise TypeError
  end.

(** ** Audio data *)

(** What [stream.read] returns: a [bytes] object. *)
Abbreviation frame := (list Byte.byte).

(** What goes on the queue: a numpy array of [int16] samples. *)
Abbreviation chunk := (list Z).

Definition CHUNK : Z := 1024.
Definition CHANNELS : Z := 1.
Definition RATE : Z := 16000.
Definition RECORD_SECONDS : Z := 30.

(** [int(self.RATE * self.RECORD_SECONDS / self.CHUNK)]: the quotient is
    truncated. *)
Definition frames_per_chunk : Z := Z.quot (RATE * RECORD_SECONDS) CHUNK.

Definition int16_of_bytes (lo hi : Byte.byte) : Z :=
  let u := Z.of_N (Byte.to_N lo) + 256 * Z.of_N (Byte.to_N hi) in
  if u <? 32768 then u else u - 65536.

(** [np.frombuffer(b, dtype=np.int16)]: two bytes a sample, and a
    [ValueError] when the size is not a multiple of the element size. *)
Fixpoint frombuffer_int16 (b : list Byte.byte) : res chunk :=
  match b with
  | [] => Ok []
  | [_] => Raise ValueError
  | lo :: hi :: b' =>
      match frombuffer_int16 b' with
      | Ok c => Ok (int16_of_bytes lo hi :: c)
      | Raise e => Raise e
      end
  end.

(** The temporary WAV file handed to the engines. *)
Record wav : Type := mkWav {
  nchannels : Z; sampwidth : Z; framerate : Z; frames : chunk
}.

(** [self.audio.get_sample_size(pyaudio.paInt16)] *)
Definition sample_size : Z := 2.

Definition write_wav (audio_data : chunk) : wav :=
  mkWav CHANNELS sample_size RATE audio_data.

(** ** The engines *)

(** [whisper_model.transcribe]: a result dictionary, or an exception. *)
Definition whisper : Type := wav -> res pydict.

Record segment : Type := mkSegment { seg_start : float; seg_end : float }.

(** [list(diarization.itertracks(yield_label=True))]: triples
    (segment, track, label), or an exception from the pipeline. *)
Definition diarizer : Type := wav -> res (list (segment * pystr * pystr)).

(** The names [dict] instances have as attributes. *)
Definition dict_attributes : list string :=
  [ "__class__"; "__class_getitem__"; "__contains__"; "__delattr__";
    "__delitem__"; "__dir__"; "__doc__"; "__eq__"; "__format__"; "__ge__";
    "__getattribute__"; "__getitem__"; "__getstate__"; "__gt__"; "__hash__";
    "__init__"; "__init_subclass__"; "__ior__"; "__iter__"; "__le__";
    "__len__"; "__lt__"; "__ne__"; "__new__"; "__or__"; "__reduce__";
    "__reduce_ex__"; "__repr__"; "__reversed__"; "__ror__"; "__setattr__";
    "__setitem__"; "__sizeof__"; "__str__"; "__subclasshook__"; "clear";
    "copy"; "fromkeys"; "get"; "items"; "keys"; "pop"; "popitem";
    "setdefault"; "update"; "values" ]%string.

(** [getattr(d, name, dflt)] on a dictionary [d]: attribute lookup goes
    to the class and never to the keys of [d]. *)
Definition getattr (d : pydict) (name : string) (dflt : pyval) : pyval :=
  if bool_decide (name ∈ dict_attributes) then VMethod name else dflt.

(** ** The application state *)

Record status : Type := mkStatus {
  st_is_recording : bool;
  st_whisper_loaded : bool;
  st_diarization_available : bool;
  st_session_id : option pystr;
  st_transcript_count : nat
}.

(** What [socketio.emit] pushes to the subscribers. *)
Inductive event : Type :=
  | StatusUpdate (s : status)
  | NewTranscript (entry : pydict).

(** The lines the application prints. *)
Inductive log_line : Type :=
  | LogStarting
  | LogLoadingWhisper
  | LogWhisperLoaded
  | LogStarted
  | LogStopping
  | LogStopped
  | LogRecordingStarted
  | LogRecordingError (e : exn)
  | LogRecordingFailed (e : exn)
  | LogProcessingStarted
  | LogTranscribing
  | LogDiarizationError (e : exn)
  | LogTranscribed (prefix : pystr)
  | LogTranscriptionError (e : exn)
  | LogProcessingCompleted.

(** Program points of a [_record_audio] thread; [audio_buffer] and
    [frame_count] are its local variables. *)
Inductive cap_pc : Type :=
  | CapOpen
  | CapTest (audio_buffer : list frame) (frame_count : Z)
  | CapRead (audio_buffer : list frame) (frame_count : Z)
  | CapExit.

(** Program points of a [_process_audio] thread. *)
Inductive proc_pc : Type :=
  | ProcStart
  | ProcTest
  | ProcGet
  | ProcExit.

Record TranscriptionApp : Type := mkApp {
  DIARIZATION_AVAILABLE : bool;
  is_recording : bool;
  audio_queue : list chunk;
  transcript_buffer : list pydict;
  session_id : option pystr;
  whisper_model : option whisper;
  diarization_pipeline : option diarizer;
  stream : option nat;
  recording_threads : list cap_pc;
  processing_threads : list proc_pc;
  emitted : list event;
  stdout : list log_line
}.

(** [TranscriptionApp.__init__], with the module-level flag set at import. *)
Definition init_app (diarization_available : bool) : TranscriptionApp :=
  mkApp diarization_available false [] [] None None None None [] [] [] [].

Definition set_is_recording (b : bool) (a : TranscriptionApp) : TranscriptionApp :=
  mkApp (DIARIZATION_AVAILABLE a) b (audio_queue a) (transcript_buffer a)
    (session_id a) (whisper_model a) (diarization_pipeline a) (stream a)
    (recording_threads a) (processing_threads a) (emitted a) (stdout a).

Definition set_audio_queue (q : list chunk) (a : TranscriptionApp) : TranscriptionApp :=
  mkApp (DIARIZATION_AVAILABLE a) (is_recording a) q (transcript_buffer a)
    (session_id a) (whisper_model a) (diarization_pipeline a) (stream a)
    (recording_threads a) (processing_threads a) (emitted a) (stdout a).

Definition set_transcript_buffer (t : list pydict) (a : TranscriptionApp) : TranscriptionApp :=
  mkApp (DIARIZATION_AVAILABLE a) (is_recording a) (audio_queue a) t
    (session_id a) (whisper_model a) (diarization_pipeline a) (stream a)
    (recording_threads a) (processing_threads a) (emitted a) (stdout a).

Definition set_session_id (i : option pystr) (a : TranscriptionApp) : TranscriptionApp :=
  mkApp (DIARIZATION_AVAILABLE a) (is_recording a) (audio_queue a)
    (transcript_buffer a) i (whisper_model a) (diarization_pipeline a)
    (stream a) (recording_threads a) (processing_threads a) (emitted a)
    (stdout a).

Definition set_whisper_model (m : option whisper) (a : TranscriptionApp) : TranscriptionApp :=
  mkApp (DIARIZATION_AVAILABLE a) (is_recording a) (audio_queue a)
    (transcript_buffer a) (session_id a) m (diarization_pipeline a)
    (stream a) (recording_threads a) (processing_threads a) (emitted a)
    (stdout a).

Definition set_stream (h : option nat) (a : TranscriptionApp) : TranscriptionApp :=
  mkApp (DIARIZATION_AVAILABLE a) (is_recording a) (audio_queue a)
    (transcript_buffer a) (session_id a) (whisper_model a)
    (diarization_pipeline a) h (recording_threads a) (processing_threads a)
    (emitted a) (stdout a).

Definition set_recording_threads (ts : list cap_pc) (a : TranscriptionApp) : TranscriptionApp :=
  mkApp (DIARIZATION_AVAILABLE a) (is_recording a) (audio_queue a)
    (transcript_buffer a) (session_id a) (whisper_model a)
    (diarization_pipeline a) (stream a) ts (processing_threads a)
    (emitted a) (stdout a).

Definition set_processing_threads (ts : list proc_pc) (a : TranscriptionApp) : TranscriptionApp :=
  mkApp (DIARIZATION_AVAILABLE a) (is_recording a) (audio_queue a)
    (transcript_buffer a) (session_id a) (whisper_model a)
    (diarization_pipeline a) (stream a) (recording_threads a) ts
    (emitted a) (stdout a).

(** [socketio.emit(...)] *)
Definition emit (ev : event) (a : TranscriptionApp) : TranscriptionApp :=
  mkApp (DIARIZATION_AVAILABLE a) (is_recording a) (audio_queue a)
    (transcript_buffer a) (session_id a) (whisper_model a)
    (diarization_pipeline a) (stream a) (recording_threads a)
    (processing_threads a) (emitted a ++ [ev]) (stdout a).

(** [print(...)] *)
Definition print (l : log_line) (a : TranscriptionApp) : TranscriptionApp :=
  mkApp (DIARIZATION_AVAILABLE a) (is_recording a) (audio_queue a)
    (transcript_buffer a) (session_id a) (whisper_model a)
    (diarization_pipeline a) (stream a) (recording_threads a)
    (processing_threads a) (emitted a) (stdout a ++ [l]).

(** [TranscriptionApp.get_status] *)
Definition get_status (a : TranscriptionApp) : status :=
  mkStatus (is_recording a)
    (match whisper_model a with Some _ => true | None => false end)
    (DIARIZATION_AVAILABLE a) (session_id a) (length (transcript_buffer a)).

(** ** Methods that read and write the state, and may raise *)

Definition prog (A : Type) : Type := TranscriptionApp -> res A * TranscriptionApp.

#[global] Instance prog_ret : MRet prog := fun A x a => (Ok x, a).

#[global] Instance prog_bind : MBind prog := fun A B k m a =>
  match m a with
  | (Ok x, a') => k x a'
  | (Raise e, a') => (Raise e, a')
  end.

Definition gets {A} (f : TranscriptionApp -> A) : prog A := fun a => (Ok (f a), a).

Definition modify (f : TranscriptionApp -> TranscriptionApp) : prog unit := fun a => (Ok tt, f a).

Definition raise {A} (e : exn) : prog A := fun a => (Raise e, a).

Definition lift {A} (r : res A) : prog A := fun a => (r, a).

(** [try: m  except Exception as e: h e] *)
Definition try_except {A} (m : prog A) (h : exn -> prog A) : prog A :=
  fun a =>
    match m a with
    | (Ok x, a') => (Ok x, a')
    | (Raise e, a') => h e a'
    end.

(** [v.strip()] *)
Definition py_strip (v : pyval) : res pystr :=
  match v with
  | VStr s => Ok (strip s)
  | _ => Raise AttributeError
  end.

(** The dictionary [_process_audio] builds for one transcribed chunk. *)
Definition new_entry (now : datetime) (text : pystr) (confidence : pyval) : pydict :=
  <["speaker" := VNone]>
    (<["confidence" := confidence]>
      (<["text" := VStr text]>
        (<["timestamp" := VStr (isoformat now)]> ∅))).

(** The diarization block of [_process_audio]: its own [try]/[except]. *)
Definition diarize (temp : wav) (transcript_entry : pydict) : prog pydict :=
  available ← gets DIARIZATION_AVAILABLE;
  pipeline ← gets diarization_pipeline;
  match (if (available : bool) then pipeline else None) with
  | Some diarization_pipeline =>
      try_except
        (speakers ← lift (diarization_pipeline temp);
         match speakers with
         | (_, _, label) :: _ =>
             mret (<["speaker" := VStr (lit "Speaker " ++ label)]> transcript_entry)
         | [] => mret transcript_entry
         end)
        (fun e => modify (print (LogDiarizationError e));; mret transcript_entry)
  | None => mret transcript_entry
  end.

(** The body of the [while] loop of [_process_audio] for a chunk taken off
    the queue; [now] is what [datetime.now()] returns. *)
Definition process_chunk (now : datetime) (audio_data : chunk) : prog unit :=
  try_except
    (let temp := write_wav audio_data in
     modify (print LogTranscribing);;
     model ← gets whisper_model;
     result ← match model with
              | Some m => lift (m temp)
              | None => raise AttributeError
              end;
     text ← lift (getitem result "text");
     text ← lift (py_strip text);
     if str_truthy text then
       transcript_entry ← diarize temp
         (new_entry now text (getattr result "confidence" (VFloat 0)));
       modify (fun a =>
         set_transcript_buffer (transcript_buffer a ++ [transcript_entry]) a);;
       modify (emit (NewTranscript transcript_entry));;
       modify (print (LogTranscribed (take 50 text)))
     else mret tt)
    (fun e => modify (print (LogTranscriptionError e))).

(** [TranscriptionApp.load_models]; [loaded] is what
    [whisper.load_model("base")] returns.  The function assigns
    [DIARIZATION_AVAILABLE] in its last handler, without a [global]
    declaration: the name is local to the function, and the test
    [if DIARIZATION_AVAILABLE:] reads it unbound.  The diarization
    pipeline below that test is never loaded. *)
Definition load_models (loaded : res whisper) : prog unit :=
  modify (print LogLoadingWhisper);;
  m ← lift loaded;
  modify (set_whisper_model (Some m));;
  modify (print LogWhisperLoaded);;
  raise (UnboundLocalError "DIARIZATION_AVAILABLE").

(** [TranscriptionApp.start_transcription]; [t] is [int(time.time())].
    The two threads start at their first program points. *)
Definition start_transcription (t : Z) (loaded : res whisper) : prog unit :=
  recording ← gets is_recording;
  if (recording : bool) then mret tt
  else
    modify (print LogStarting);;
    model ← gets whisper_model;
    match model with
    | None => load_models loaded
    | Some _ => mret tt
    end;;
    modify (set_is_recording true);;
    modify (set_session_id (Some (lit "session_" ++ str_of_int t)));;
    modify (set_transcript_buffer []);;
    modify (fun a => set_recording_threads (recording_threads a ++ [CapOpen]) a);;
    modify (fun a => set_processing_threads (processing_threads a ++ [ProcStart]) a);;
    modify (fun a => emit (StatusUpdate (get_status a)) a);;
    modify (print LogStarted).

(** [TranscriptionApp.stop_transcription] *)
Definition stop_transcription : prog unit :=
  recording ← gets is_recording;
  if negb (recording : bool) then mret tt
  else
    modify (print LogStopping);;
    modify (set_is_recording false);;
    s ← gets stream;
    match s with
    | Some _ => modify (set_stream None)
    | None => mret tt
    end;;
    modify (fun a => emit (StatusUpdate (get_status a)) a);;
    modify (print LogStopped).

(** ** The control routes *)

(** The JSON body of a reply. *)
Record response : Type := mkResponse { success : bool; message : pystr }.

(** [POST /api/start].  The request body only supplies [video_info], which
    [start_transcription] never reads. *)
Definition start_recording (t : Z) (loaded : res whisper) : prog response :=
  recording ← gets is_recording;
  if negb (recording : bool) then
    start_transcription t loaded;;
    mret (mkResponse true (lit "Transcription started"))
  else mret (mkResponse false (lit "Already recording")).

(** [POST /api/stop] *)
Definition stop_recording : prog response :=
  recording ← gets is_recording;
  if (recording : bool) then
    stop_transcription;;
    mret (mkResponse true (lit "Transcription stopped"))
  else mret (mkResponse false (lit "Not recording")).

(** ** The threads, one step at a time *)

(** What a step shows to an observer of the pipeline. *)
Inductive obs : Type :=
  | Tau
  | Reply (r : res response)
  | Put (c : chunk)
  | Got (c : chunk) (now : datetime).

(** What the audio device answers to a step of the capture thread. *)
Inductive device_io : Type :=
  | IoNone
  | IoOpen (r : res nat)
  | IoRead (r : res frame).

(** The inner [except] of [_record_audio]: log while recording, then
    [break]. *)
Definition on_read_error (e : exn) (a : TranscriptionApp) : TranscriptionApp :=
  if is_recording a then print (LogRecordingError e) a else a.

(** One step of a [_record_audio] thread: opening the stream, the test of
    the [while], or one pass through its body. *)
Definition record_step (pc : cap_pc) (io : device_io) (a : TranscriptionApp)
    : option (cap_pc * obs * TranscriptionApp) :=
  match pc, io with
  | CapOpen, IoOpen (Ok h) =>
      Some (CapTest [] 0, Tau, print LogRecordingStarted (set_stream (Some h) a))
  | CapOpen, IoOpen (Raise e) =>
      Some (CapExit, Tau, set_is_recording false (print (LogRecordingFailed e) a))
  | CapTest audio_buffer frame_count, IoNone =>
      Some (if is_recording a then CapRead audio_buffer frame_count else CapExit,
            Tau, a)
  | CapRead audio_buffer frame_count, IoRead r =>
      let r := match stream a with
               | Some _ => r
               | None => Raise AttributeError
               end in
      match r with
      | Ok data =>
          let audio_buffer := audio_buffer ++ [data] in
          let frame_count := frame_count + 1 in
          if frames_per_chunk <=? frame_count then
            match frombuffer_int16 (concat audio_buffer) with
            | Ok audio_data =>
                Some (CapTest [] 0, Put audio_data,
                      set_audio_queue (audio_queue a ++ [audio_data]) a)
            | Raise e => Some (CapExit, Tau, on_read_error e a)
            end
          else Some (CapTest audio_buffer frame_count, Tau, a)
      | Raise e => Some (CapExit, Tau, on_read_error e a)
      end
  | _, _ => None
  end.

(** One step of a [_process_audio] thread: the test of the [while], or
    [get(timeout=1.0)] with the rest of the body. *)
Definition process_step (pc : proc_pc) (now : datetime) (a : TranscriptionApp)
    : option (proc_pc * obs * TranscriptionApp) :=
  match pc with
  | ProcStart => Some (ProcTest, Tau, print LogProcessingStarted a)
  | ProcTest =>
      if is_recording a || negb (bool_decide (audio_queue a = [])) then
        Some (ProcGet, Tau, a)
      else Some (ProcExit, Tau, print LogProcessingCompleted a)
  | ProcGet =>
      match audio_queue a with
      | audio_data :: q =>
          Some (ProcTest, Got audio_data now,
                snd (process_chunk now audio_data (set_audio_queue q a)))
      | [] => Some (ProcTest, Tau, a)
      end
  | ProcExit => None
  end.

(** ** The whole system *)

Inductive label : Type :=
  | ApiStart (t : Z) (loaded : res whisper)
  | ApiStop
  | Capture (i : nat) (io : device_io)
  | Process (j : nat) (now : datetime).

Definition step (a : TranscriptionApp) (l : label) : option (TranscriptionApp * obs) :=
  match l with
  | ApiStart t loaded =>
      let '(r, a') := start_recording t loaded a in Some (a', Reply r)
  | ApiStop =>
      let '(r, a') := stop_recording a in Some (a', Reply r)
  | Capture i io =>
      pc ← recording_threads a !! i;
      '(pc', o, a') ← record_step pc io a;
      Some (set_recording_threads (<[i := pc']> (recording_threads a')) a', o)
  | Process j now =>
      pc ← processing_threads a !! j;
      '(pc', o, a') ← process_step pc now a;
      Some (set_processing_threads (<[j := pc']> (processing_threads a')) a', o)
  end.

(** A schedule, run from [a]: the final state and what was observed. *)
Fixpoint run (a : TranscriptionApp) (tr : list label) : option (TranscriptionApp * list obs) :=
  match tr with
  | [] => Some (a, [])
  | l :: tr' =>
      '(a', o) ← step a l;
      '(a'', os) ← run a' tr';
      Some (a'', o :: os)
  end.

(** The chunks put on the queue, and those taken off it. *)
Definition puts (os : list obs) : list chunk :=
  omap (fun o => match o with Put c => Some c | _ => None end) os.

Definition gots (os : list obs) : list (chunk * datetime) :=
  omap (fun o => match o with Got c now => Some (c, now) | _ => None end) os.

(** ** The exporter *)

Section Exporter.

(** [repr] of the values that are neither [None] nor a [str], as the
    runtime prints them. *)
Variable py_repr : pyval -> pystr.

(** What an f-string field [{v}] prints. *)
Definition py_str (v : pyval) : pystr :=
  match v with
  | VNone => lit "None"
  | VStr s => s
  | _ => py_repr v
  end.

Definition opt_str (o : option pystr) : pystr :=
  match o with
  | None => lit "None"
  | Some s => s
  end.

(** ['\n'.join(lines)] *)
Fixpoint join_lines (lines : list pystr) : pystr :=
  match lines with
  | [] => []
  | [l] => l
  | l :: ls => l ++ 10%N :: join_lines ls
  end.

Definition header (now : datetime) (session_id : option pystr)
    (count : nat) : list pystr :=
  [ lit "Advanced Audio Transcript";
    concat (repeat (lit "=") 50);
    lit "Generated: " ++ fixed_dec 4 (year now) ++ lit "-"
      ++ fixed_dec 2 (month now) ++ lit "-" ++ fixed_dec 2 (day now)
      ++ lit " " ++ strftime_HMS now;
    lit "Session ID: " ++ opt_str session_id;
    lit "Total Entries: " ++ str_of_int (Z.of_nat count);
    [];
    lit "--- TRANSCRIPT ---";
    [] ].

(** One pass of the [for entry in self.transcript_buffer] loop. *)
Definition format_entry (entry : pydict) : res pystr :=
  ts ← getitem entry "timestamp";
  d ← fromisoformat ts;
  let timestamp := strftime_HMS d in
  let speaker := dict_get entry "speaker" (VStr (lit "Speaker")) in
  text ← getitem entry "text";
  mret (lit "[" ++ timestamp ++ lit "] " ++ py_str speaker ++ lit ": "
        ++ py_str text).

Fixpoint format_entries (buf : list pydict) : res (list pystr) :=
  match buf with
  | [] => mret []
  | e :: buf' =>
      l ← format_entry e;
      ls ← format_entries buf';
      mret (l :: ls)
  end.

(** [TranscriptionApp.format_transcript]; [now] is [datetime.now()]. *)
Definition format_transcript (now : datetime) (a : TranscriptionApp) : res pystr :=
  match transcript_buffer a with
  | [] => mret (lit "No transcript data available.")
  | _ =>
      body ← format_entries (transcript_buffer a);
      mret (join_lines
              (header now (session_id a) (length (transcript_buffer a)) ++ body))
  end.

End Exporter.

(** ** What a chunk contributes to the transcript *)

(** The engine's result for a chunk, with its stripped text, when the text
    is not empty. *)
Definition transcription (a : TranscriptionApp) (c : chunk)
    : option (pydict * pystr) :=
  m ← whisper_model a;
  match m (write_wav c) with
  | Ok result =>
      match result !! "text" with
      | Some (VStr s) =>
          if str_truthy (strip s) then Some (result, strip s) else None
      | _ => None
      end
  | Raise _ => None
  end.

(** The speaker the diarization block leaves in the entry. *)
Definition speaker_label (a : TranscriptionApp) (c : chunk) : pyval :=
  match (if DIARIZATION_AVAILABLE a then diarization_pipeline a else None) with
  | Some d =>
      match d (write_wav c) with
      | Ok ((_, _, label) :: _) => VStr (lit "Speaker " ++ label)
      | _ => VNone
      end
  | None => VNone
  end.

(** The entry a chunk taken off the queue at [now] adds, if any. *)
Definition entry_of (a : TranscriptionApp) (now : datetime) (c : chunk)
    : option pydict :=
  '(result, text) ← transcription a c;
  Some (<["speaker" := speaker_label a c]>
          (new_entry now text (getattr result "confidence" (VFloat 0)))).

(** The fields of the state that a worker iteration leaves alone. *)
Definition same_control (a a' : TranscriptionApp) : Prop :=
  DIARIZATION_AVAILABLE a' = DIARIZATION_AVAILABLE a
  /\ is_recording a' = is_recording a
  /\ audio_queue a' = audio_queue a
  /\ session_id a' = session_id a
  /\ whisper_model a' = whisper_model a
  /\ diarization_pipeline a' = diarization_pipeline a
  /\ stream a' = stream a
  /\ recording_threads a' = recording_threads a
  /\ processing_threads a' = processing_threads a.

(** ** Data for the examples *)

Definition example_now (s : Z) : datetime := mkDatetime 2024 1 1 10 0 s 0.

(** An engine that hears [hello] in a chunk starting with sample 1,
    [world] (and a [confidence] key) in one starting with 3, and only
    blanks in the others. *)
Definition example_whisper : whisper := fun w =>
  match frames w with
  | 1 :: _ => Ok (<["text" := VStr (lit " hello ")]> ∅)
  | 3 :: _ =>
      Ok (<["confidence" := VFloat 1]> (<["text" := VStr (lit "world")]> ∅))
  | _ => Ok (<["text" := VStr (lit "   ")]> ∅)
  end.

(** A pipeline that fails on every call. *)
Definition failing_diarizer : diarizer := fun _ => Raise (RuntimeError (lit "no token")).

(** An idle application with the model loaded, as the first [/api/start]
    leaves it. *)
Definition loaded_app : TranscriptionApp :=
  set_whisper_model (Some example_whisper) (init_app false).

(** The same, with a diarization pipeline that fails. *)
Definition diarizing_app : TranscriptionApp :=
  mkApp true false [] [] None (Some example_whisper) (Some failing_diarizer)
    None [] [] [] [].

(** An entry whose [confidence] is the float [0.0]. *)
Definition confidence_zero (e : pydict) : Prop :=
  e !! "confidence" = Some (VFloat 0).

Definition published_confidence_zero (ev : event) : Prop :=
  match ev with
  | NewTranscript e => confidence_zero e
  | StatusUpdate _ => True
  end.

(** A frame of 1024 samples, silent but for its first byte. *)
Definition example_frame (first : Byte.byte) : frame :=
  first :: repeat Byte.x00 2047.

(** The capture thread [i] reading the 468 frames of one chunk. *)
Definition capture_chunk (i : nat) (first : Byte.byte) : list label :=
  concat (repeat [Capture i IoNone; Capture i (IoRead (Ok (example_frame first)))] 468).

(** The samples of the chunk those reads assemble. *)
Definition example_chunk (first : Z) : chunk :=
  concat (repeat (first :: repeat 0 1023) 468).

(** A session: the first [/api/start] loads the model and fails, the second
    starts the threads; three chunks are captured, of which the second is
    blank; [/api/stop]; the worker drains the queue. *)
Definition example_session : list label :=
  [ ApiStart 1700000000 (Ok example_whisper);
    ApiStart 1700000001 (Ok example_whisper);
    Capture 0 (IoOpen (Ok 0%nat)) ]
  ++ capture_chunk 0 Byte.x01 ++ capture_chunk 0 Byte.x02
  ++ capture_chunk 0 Byte.x03
  ++ [ ApiStop;
       Process 0 (example_now 0);
       Process 0 (example_now 1); Process 0 (example_now 2);
       Process 0 (example_now 3); Process 0 (example_now 4);
       Process 0 (example_now 5); Process 0 (example_now 6);
       Process 0 (example_now 7) ].

(** ** Schedules of one worker *)

(** The worker [j] taking one chunk off the queue at each of the times
    [nows]: the test of the loop, then the body. *)
Definition worker_labels (j : nat) (nows : list datetime) : list label :=
  flat_map (fun now => [Process j now; Process j now]) nows.

(** The entries the chunks [q], taken at the given times, add. *)
Definition entries_of (a : TranscriptionApp) (q : list (chunk * datetime))
    : list pydict :=
  omap (fun x => entry_of a (snd x) (fst x)) q.

(** An application whose worker is at the head of its loop, with three
    chunks waiting, of which the second is blank. *)
Definition draining_app : TranscriptionApp :=
  mkApp false false [[1]; [2]; [3]] [] (Some (lit "session_1700000001"))
    (Some example_whisper) None None [CapExit] [ProcTest] [] [].

(** An application whose worker has a chunk to take, with a diarization
    pipeline that fails. *)
Definition diarizing_worker_app : TranscriptionApp :=
  mkApp true true [[1]] [] (Some (lit "session_1700000001"))
    (Some example_whisper) (Some failing_diarizer) (Some 0%nat)
    [CapTest [] 0] [ProcGet] [] [].

(** A recording application with two chunks waiting and its worker about
    to take one. *)
Definition recording_app : TranscriptionApp :=
  mkApp false true [[1]; [2]] [] (Some (lit "session_1700000001"))
    (Some example_whisper) None (Some 0%nat) [CapTest [] 0] [ProcGet] [] [].

(** What [/api/stop] makes of it. *)
Definition stopped_app : TranscriptionApp :=
  print LogStopped
    (emit (StatusUpdate
             (mkStatus false true false (Some (lit "session_1700000001")) 0))
       (set_stream None (set_is_recording false (print LogStopping recording_app)))).

Definition example_clock : list datetime :=
  map example_now [0; 1; 2; 3; 4; 5; 6; 7].

(** The state the example session ends in, and what it showed. *)
Definition example_final : TranscriptionApp :=
  mkApp false false []
    [ new_entry (example_now 2) (lit "hello") (VFloat 0);
      new_entry (example_now 6) (lit "world") (VFloat 0) ]
    (Some (lit "session_1700000001"))
    (Some example_whisper) None None [CapTest [] 0] [ProcExit]
    [ StatusUpdate (mkStatus true true false (Some (lit "session_1700000001")) 0);
      StatusUpdate (mkStatus false true false (Some (lit "session_1700000001")) 0);
      NewTranscript (new_entry (example_now 2) (lit "hello") (VFloat 0));
      NewTranscript (new_entry (example_now 6) (lit "world") (VFloat 0)) ]
    [ LogStarting; LogLoadingWhisper; LogWhisperLoaded;
      LogStarting; LogStarted; LogRecordingStarted;
      LogStopping; LogStopped;
      LogProcessingStarted;
      LogTranscribing; LogTranscribed (lit "hello");
      LogTranscribing;
      LogTranscribing; LogTranscribed (lit "world");
      LogProcessingCompleted ].

(** A run in brief: the final state, the first sample and the length of
    each chunk put on the queue, the first sample of each chunk taken off
    it with the time. *)
Definition run_summary (r : option (TranscriptionApp * list obs))
    : option (TranscriptionApp * list (Z * Z) * list (Z * datetime)) :=
  match r with
  | Some (a, os) =>
      Some (a,
            map (fun c => (hd 0 c, Z.of_nat (length c))) (puts os),
            map (fun x => (hd 0 (fst x), snd x)) (gots os))
  | None => None
  end.

Definition observed (r : option (TranscriptionApp * list obs)) : list obs :=
  match r with
  | Some (_, os) => os
  | None => []
  end.

(** What the example session showed. *)
Definition example_obs : list obs :=
  observed (run (init_app false) example_session).

(** ** Sessions *)

(** A step other than [/api/start]: within one session. *)
Definition no_start (l : label) : Prop :=
  match l with
  | ApiStart _ _ => False
  | _ => True
  end.


(** The worker of [draining_app] after three iterations, and what they
    showed. *)
Definition drained_app : TranscriptionApp :=
  mkApp false false []
    [ new_entry (example_now 1) (lit "hello") (VFloat 0);
      new_entry (example_now 3) (lit "world") (VFloat 0) ]
    (Some (lit "session_1700000001"))
    (Some example_whisper) None None [CapExit] [ProcTest]
    [ NewTranscript (new_entry (example_now 1) (lit "hello") (VFloat 0));
      NewTranscript (new_entry (example_now 3) (lit "world") (VFloat 0)) ]
    [ LogTranscribing; LogTranscribed (lit "hello");
      LogTranscribing;
      LogTranscribing; LogTranscribed (lit "world") ].

Definition drained_obs : list obs :=
  [ Tau; Got [1] (example_now 1);
    Tau; Got [2] (example_now 2);
    Tau; Got [3] (example_now 3) ].

(** ** The chunk assembler *)




(** ** A device that cannot be opened *)

(** What [self.audio.open] raises when there is no input device. *)
Definition device_error : exn := OSError (-9996).




From Stdlib Require DecimalPos DecimalZ.

(** ** Entries, as the application makes them *)

(** A string that neither starts nor ends with whitespace (and so is not
    empty). *)
Definition trimmed (s : pystr) : Prop :=
  (exists c, head s = Some c /\ is_space c = false)
  /\ (exists c, last s = Some c /\ is_space c = false).

(** A step whose clock, when the worker reads it, is in [T]. *)
Definition clock_in (T : datetime -> Prop) (l : label) : Prop :=
  match l with
  | Process _ now => T now
  | _ => True
  end.

(** An entry with a trimmed text, the confidence [0.0] and no speaker,
    stamped at a time in [T]. *)
Definition plain_entry (T : datetime -> Prop) (e : pydict) : Prop :=
  exists now text,
    T now /\ trimmed text /\ e = new_entry now text (VFloat 0).

(** The entries pushed to the subscribers, in order. *)
Definition published (evs : list event) : list pydict :=
  omap (fun ev => match ev with
                  | NewTranscript e => Some e
                  | StatusUpdate _ => None
                  end) evs.

(** No pipeline, and only plain entries in the buffer and on the wire. *)
Definition plain_state (T : datetime -> Prop) (a : TranscriptionApp) : Prop :=
  diarization_pipeline a = None
  /\ Forall (plain_entry T) (transcript_buffer a)
  /\ Forall (plain_entry T) (published (emitted a)).

(** ** The export route *)

(** [d.strftime("%Y%m%d_%H%M%S")] *)
Definition strftime_compact (d : datetime) : pystr :=
  fixed_dec 4 (year d) ++ fixed_dec 2 (month d) ++ fixed_dec 2 (day d)
  ++ lit "_" ++ fixed_dec 2 (hour d) ++ fixed_dec 2 (minute d)
  ++ fixed_dec 2 (second d).

(** What [GET /api/export] answers: a JSON body, or the file sent as an
    attachment. *)
Inductive export_reply : Type :=
  | ExportJson (r : response)
  | ExportFile (download_name : pystr) (content : pystr).

(** [export_transcript]; [now] is the clock read for the file name, [now']
    the one [format_transcript] reads for its header.  The file written in
    the temporary directory is the one the reply carries. *)
Definition export_transcript (py_repr : pyval -> pystr) (now now' : datetime)
    (a : TranscriptionApp) : res export_reply :=
  match transcript_buffer a with
  | [] => Ok (ExportJson (mkResponse false (lit "No transcript data")))
  | _ =>
      let timestamp := strftime_compact now in
      let filename := lit "transcript_" ++ timestamp ++ lit ".txt" in
      content ← format_transcript py_repr now' a;
      mret (ExportFile filename content)
  end.

(** The line of the export for an entry stamped [now] with text [text]
    and no speaker. *)
Definition unlabelled_line (now : datetime) (text : pystr) : pystr :=
  lit "[" ++ strftime_HMS now ++ lit "] None: " ++ text.

(** ** Audio devices *)

(** What [get_device_info_by_index] returns, as far as the application
    reads it. *)
Record device_info : Type := mkDeviceInfo {
  info_name : pystr;
  maxInputChannels : Z
}.

(** An entry of the list [get_audio_devices] returns. *)
Record device : Type := mkDevice {
  index : nat;
  name : pystr;
  channels : Z
}.

(** [TranscriptionApp.get_audio_devices]; [audio] lists the devices of the
    host, [get_device_count()] is its length. *)
Definition get_audio_devices (audio : list device_info) : list device :=
  foldl (fun devices i =>
           match audio !! i with
           | Some info =>
               if 0 <? maxInputChannels info then
                 devices ++ [mkDevice i (info_name info) (maxInputChannels info)]
               else devices
           | None => devices
           end)
        [] (seq 0 (length audio)).

(** ** Starting a session *)

(** The state a successful [start_transcription] at time [t] makes of an
    idle application with its model loaded. *)
Definition started (t : Z) (a : TranscriptionApp) : TranscriptionApp :=
  let a1 :=
    set_processing_threads (processing_threads a ++ [ProcStart])
      (set_recording_threads (recording_threads a ++ [CapOpen])
         (set_transcript_buffer []
            (set_session_id (Some (lit "session_" ++ str_of_int t))
               (set_is_recording true (print LogStarting a))))) in
  print LogStarted (emit (StatusUpdate (get_status a1)) a1).

Definition reply_started : obs :=
  Reply (Ok (mkResponse true (lit "Transcription started"))).


(** ** Threads across sessions *)

(** A recording application whose worker is at the head of its loop, with
    nothing on the queue. *)
Definition polling_app : TranscriptionApp :=
  mkApp false true [] [] (Some (lit "session_1700000001"))
    (Some example_whisper) None (Some 0%nat) [CapRead [] 0] [ProcTest] [] [].

(** An engine that fails on every chunk. *)
Definition failing_whisper : whisper :=
  fun _ => Raise (RuntimeError (lit "out of memory")).

(** A worker with a chunk to take and an engine that fails. *)
Definition failing_worker_app : TranscriptionApp :=
  mkApp false true [[1]; [2]] [] (Some (lit "session_1700000001"))
    (Some failing_whisper) None (Some 0%nat) [CapTest [] 0] [ProcGet] [] [].

(** A pipeline that hears one speaker. *)
Definition example_diarizer : diarizer :=
  fun _ => Ok [ (mkSegment 0 1, lit "A", lit "SPEAKER_00");
                (mkSegment 1 2, lit "B", lit "SPEAKER_01") ].

(** A worker with a chunk to take and that pipeline. *)
Definition labelling_worker_app : TranscriptionApp :=
  mkApp true true [[1]] [] (Some (lit "session_1700000001"))
    (Some example_whisper) (Some example_diarizer) (Some 0%nat)
    [CapTest [] 0] [ProcGet] [] [].

(** How the transcription of a chunk fails with [e]: the engine raises, its
    result has no [text], or the [text] is not a string. *)
Definition transcription_fails (m : whisper) (c : chunk) (e : exn) : Prop :=
  m (write_wav c) = Raise e
  \/ (exists result,
        m (write_wav c) = Ok result /\ result !! "text" = None
        /\ e = KeyError "text")
  \/ (exists result v,
        m (write_wav c) = Ok result /\ result !! "text" = Some v
        /\ (forall s, v <> VStr s) /\ e = AttributeError).

(** ** Schedules of one capture thread *)


(** The range of an [int16]. *)
Definition in_int16 (x : Z) : Prop := -32768 <= x < 32768.

(** A recording application whose capture thread is at the head of its
    loop with an empty buffer. *)
Definition capturing_app : TranscriptionApp :=
  mkApp false true [] [] (Some (lit "session_1700000001"))
    (Some example_whisper) None (Some 0%nat) [CapTest [] 0] [ProcTest] [] [].

(** ** Status snapshots *)



(** A step of a thread, not of a control route. *)
Definition thread_step (l : label) : Prop :=
  match l with
  | Capture _ _ | Process _ _ => True
  | ApiStart _ _ | ApiStop => False
  end.

(** * Properties *)
(** ** Decimal fields and timestamps *)

Lemma digit_val_digit (d : Z) : 0 <= d < 10 -> digit_val (digit d) = Some d.
Proof.
  intros Hd. unfold digit_val, digit.
  assert (H1 : (48 <=? 48 + Z.to_N d)%N = true) by (apply N.leb_le; lia).
  assert (H2 : (48 + Z.to_N d <=? 57)%N = true) by (apply N.leb_le; lia).
  rewrite H1, H2. simpl. f_equal. lia.
Qed.

Lemma parse_digits_snoc (w : nat) : forall acc s,
  parse_digits (S w) acc s =
  match parse_digits w acc s with
  | Some (v, c :: s') =>
      match digit_val c with
      | Some d => Some (v * 10 + d, s')
      | None => None
      end
  | _ => None
  end.
Proof.
  induction w as [|w IH]; intros acc s.
  - simpl. destruct s as [|c s]; [reflexivity|]. destruct (digit_val c); reflexivity.
  - change (parse_digits (S (S w)) acc s) with
      (match s with
       | c :: s' =>
           match digit_val c with
           | Some d => parse_digits (S w) (acc * 10 + d) s'
           | None => None
           end
       | [] => None
       end).
    destruct s as [|c s]; [reflexivity|].
    simpl parse_digits at 2.
    destruct (digit_val c) as [d|]; [|reflexivity].
    apply IH.
Qed.

Lemma parse_fixed_dec (w : nat) : forall n acc rest,
  0 <= n < 10 ^ Z.of_nat w ->
  parse_digits w acc (fixed_dec w n ++ rest) = Some (acc * 10 ^ Z.of_nat w + n, rest).
Proof.
  induction w as [|w IH]; intros n acc rest Hn.
  - simpl in *. f_equal. f_equal. lia.
  - rewrite parse_digits_snoc.
    cbn [fixed_dec]. rewrite <- app_assoc.
    assert (Hp : 10 ^ Z.of_nat (S w) = 10 * 10 ^ Z.of_nat w).
    { rewrite Nat2Z.inj_succ, Z.pow_succ_r by lia. reflexivity. }
    rewrite IH.
    + cbn [List.app]. rewrite digit_val_digit by (apply Z.mod_pos_bound; lia).
      f_equal. f_equal. rewrite Hp.
      pose proof (Z.div_mod n 10 ltac:(lia)). lia.
    + rewrite Hp in Hn. split.
      * apply Z.div_pos; lia.
      * apply Z.div_lt_upper_bound; lia.
Qed.

Lemma valid_datetime_bounds (d : datetime) :
  valid_datetime d = true ->
  (0 <= year d < 10 ^ 4) /\ (0 <= month d < 10 ^ 2) /\ (0 <= day d < 10 ^ 2)
  /\ (0 <= hour d < 10 ^ 2) /\ (0 <= minute d < 10 ^ 2)
  /\ (0 <= second d < 10 ^ 2) /\ (0 <= microsecond d < 10 ^ 6).
Proof.
  unfold valid_datetime. rewrite !andb_true_iff, !Z.leb_le.
  intros H.
  assert (Hm : days_in_month (year d) (month d) <= 31).
  { unfold days_in_month. repeat (case_match; try lia). }
  lia.
Qed.

(** [fromisoformat] reads back what [isoformat] wrote. *)
Lemma parse_iso_isoformat (d : datetime) :
  valid_datetime d = true -> parse_iso (isoformat d) = Some d.
Proof.
  intros Hv. pose proof (valid_datetime_bounds d Hv) as (Hy & Hmo & Hd & Hh & Hmi & Hs & Hus).
  unfold parse_iso, isoformat.
  rewrite (parse_fixed_dec 4) by exact Hy. cbn [mbind option_bind].
  change (lit "-") with [45%N]. cbn [List.app expect]. rewrite N.eqb_refl.
  cbn [mbind option_bind].
  rewrite (parse_fixed_dec 2) by exact Hmo. cbn [mbind option_bind List.app expect].
  rewrite N.eqb_refl. cbn [mbind option_bind].
  rewrite (parse_fixed_dec 2) by exact Hd. cbn [mbind option_bind].
  change (lit "T") with [84%N]. cbn [List.app expect]. rewrite N.eqb_refl.
  cbn [mbind option_bind].
  rewrite (parse_fixed_dec 2) by exact Hh. cbn [mbind option_bind].
  change (lit ":") with [58%N]. cbn [List.app expect]. rewrite N.eqb_refl.
  cbn [mbind option_bind].
  rewrite (parse_fixed_dec 2) by exact Hmi. cbn [mbind option_bind List.app expect].
  rewrite N.eqb_refl. cbn [mbind option_bind].
  destruct (microsecond d =? 0) eqn:Hz.
  - rewrite (parse_fixed_dec 2) by exact Hs. cbn [mbind option_bind].
    apply Z.eqb_eq in Hz.
    replace (mkDatetime _ _ _ _ _ _ _) with d by (destruct d; simpl in *; f_equal; lia).
    rewrite Hv. reflexivity.
  - rewrite (parse_fixed_dec 2) by exact Hs. cbn [mbind option_bind].
    change (lit ".") with [46%N]. cbn [List.app expect]. rewrite N.eqb_refl.
    cbn [mbind option_bind].
    rewrite <- (app_nil_r (fixed_dec 6 (microsecond d))).
    rewrite (parse_fixed_dec 6) by exact Hus. cbn [mbind option_bind].
    replace (mkDatetime _ _ _ _ _ _ _) with d by (destruct d; simpl in *; f_equal; lia).
    rewrite Hv. reflexivity.
Qed.

(** ** One iteration of the worker *)

Lemma new_entry_speaker (now : datetime) (text : pystr) (conf : pyval) :
  <["speaker" := VNone]> (new_entry now text conf) = new_entry now text conf.
Proof. unfold new_entry. apply insert_insert_eq. Qed.

Ltac unfold_prog :=
  unfold process_chunk, diarize, try_except, mbind, prog_bind, mret, prog_ret,
    gets, modify, lift, raise in *.

Lemma process_chunk_spec (now : datetime) (c : chunk) (a : TranscriptionApp) :
  let a' := snd (process_chunk now c a) in
  transcript_buffer a' = transcript_buffer a ++ option_list (entry_of a now c)
  /\ emitted a' = emitted a ++ map NewTranscript (option_list (entry_of a now c))
  /\ same_control a a'.
Proof.
  unfold entry_of, transcription, speaker_label, same_control.
  unfold_prog. destruct a as [av rec q tb sid wm dp st rts pts em out].
  cbn [whisper_model diarization_pipeline DIARIZATION_AVAILABLE print
       transcript_buffer emitted fst snd].
  destruct wm as [m|]; cbn; [|by rewrite !app_nil_r].
  destruct (m (write_wav c)) as [result|e]; cbn; [|by rewrite !app_nil_r].
  unfold getitem. destruct (result !! "text") as [[| s | |]|]; cbn;
    try (by rewrite !app_nil_r).
  destruct (str_truthy (strip s)); cbn; [|by rewrite !app_nil_r].
  destruct av; cbn; [|by rewrite new_entry_speaker].
  destruct dp as [d|]; cbn; [|by rewrite new_entry_speaker].
  destruct (d (write_wav c)) as [[|[[sg tk] lb] sp]|e]; cbn;
    try (by rewrite new_entry_speaker).
  done.
Qed.

(** ** What each kind of step can change *)

Lemma entry_of_ext (a a' : TranscriptionApp) (now : datetime) (c : chunk) :
  whisper_model a' = whisper_model a ->
  diarization_pipeline a' = diarization_pipeline a ->
  DIARIZATION_AVAILABLE a' = DIARIZATION_AVAILABLE a ->
  entry_of a' now c = entry_of a now c.
Proof.
  intros Hw Hd Ha. unfold entry_of, transcription, speaker_label.
  rewrite Hw, Hd, Ha. reflexivity.
Qed.

(** The engines a state holds. *)
Definition same_engines (a a' : TranscriptionApp) : Prop :=
  whisper_model a' = whisper_model a
  /\ diarization_pipeline a' = diarization_pipeline a
  /\ DIARIZATION_AVAILABLE a' = DIARIZATION_AVAILABLE a.

Lemma step_capture (a a' : TranscriptionApp) (i : nat) (io : device_io) (o : obs) :
  step a (Capture i io) = Some (a', o) ->
  transcript_buffer a' = transcript_buffer a
  /\ emitted a' = emitted a
  /\ processing_threads a' = processing_threads a
  /\ same_engines a a'
  /\ ((o = Tau /\ audio_queue a' = audio_queue a)
      \/ exists c, o = Put c /\ audio_queue a' = audio_queue a ++ [c]).
Proof.
  unfold step, same_engines. intros H.
  destruct (recording_threads a !! i) as [pc|]; [|discriminate].
  cbn in H.
  destruct (record_step pc io a) as [[[pc' o'] a1]|] eqn:Hs; [|discriminate].
  cbn in H. simplify_eq.
  unfold record_step, on_read_error in Hs.
  repeat (case_match; try discriminate); simplify_eq; cbn;
    repeat split; eauto.
Qed.

Lemma step_process (a a' : TranscriptionApp) (j : nat) (now : datetime) (o : obs) :
  step a (Process j now) = Some (a', o) ->
  is_recording a' = is_recording a
  /\ recording_threads a' = recording_threads a
  /\ stream a' = stream a
  /\ same_engines a a'
  /\ ((o = Tau /\ audio_queue a' = audio_queue a
       /\ transcript_buffer a' = transcript_buffer a
       /\ emitted a' = emitted a)
      \/ exists c, o = Got c now
           /\ audio_queue a = c :: audio_queue a'
           /\ transcript_buffer a' =
                transcript_buffer a ++ option_list (entry_of a now c)
           /\ emitted a' =
                emitted a ++ map NewTranscript (option_list (entry_of a now c))).
Proof.
  unfold step, same_engines. intros H.
  destruct (processing_threads a !! j) as [pc|]; [|discriminate].
  cbn in H.
  destruct (process_step pc now a) as [[[pc' o'] a1]|] eqn:Hs; [|discriminate].
  cbn in H. simplify_eq.
  destruct pc; cbn in Hs; try discriminate.
  - simplify_eq. cbn. repeat split; eauto.
  - case_match; simplify_eq; cbn; repeat split; eauto.
  - destruct (audio_queue a) as [|c q] eqn:Hq; simplify_eq; cbn.
    + repeat split; eauto.
    + pose proof (process_chunk_spec now c (set_audio_queue q a)) as (Ht & He & Hc).
      rewrite (entry_of_ext a (set_audio_queue q a)) in Ht, He by reflexivity.
      destruct Hc as (H1 & H2 & H3 & H4 & H5 & H6 & H7 & H8 & H9).
      cbn in H1, H2, H3, H4, H5, H6, H7, H8, H9, Ht, He.
      repeat split; eauto.
      right. exists c. repeat split; eauto. congruence.
Qed.

Lemma step_stop (a a' : TranscriptionApp) (o : obs) :
  step a ApiStop = Some (a', o) ->
  is_recording a' = false
  /\ audio_queue a' = audio_queue a
  /\ transcript_buffer a' = transcript_buffer a
  /\ session_id a' = session_id a
  /\ recording_threads a' = recording_threads a
  /\ processing_threads a' = processing_threads a
  /\ same_engines a a'
  /\ (exists evs, emitted a' = emitted a ++ evs
        /\ Forall (fun ev => exists s, ev = StatusUpdate s) evs)
  /\ exists r, o = Reply r.
Proof.
  unfold step, stop_recording, stop_transcription, same_engines.
  unfold mbind, prog_bind, mret, prog_ret, gets, modify.
  destruct (is_recording a) eqn:Hr; cbn; rewrite ?Hr; cbn.
  - destruct (stream a); cbn; intros H; simplify_eq; cbn;
      repeat split; eauto.
  - intros H; simplify_eq. repeat split; eauto.
    exists []. by rewrite app_nil_r.
Qed.

Lemma step_start (a a' : TranscriptionApp) (t : Z) (loaded : res whisper) (o : obs) :
  step a (ApiStart t loaded) = Some (a', o) ->
  audio_queue a' = audio_queue a
  /\ (transcript_buffer a' = transcript_buffer a \/ transcript_buffer a' = [])
  /\ (exists evs, emitted a' = emitted a ++ evs
        /\ Forall (fun ev => exists s, ev = StatusUpdate s) evs)
  /\ diarization_pipeline a' = diarization_pipeline a
  /\ DIARIZATION_AVAILABLE a' = DIARIZATION_AVAILABLE a
  /\ exists r, o = Reply r.
Proof.
  unfold step, start_recording, start_transcription, load_models.
  unfold mbind, prog_bind, mret, prog_ret, gets, modify, lift, raise.
  destruct (is_recording a) eqn:Hr; cbn; rewrite ?Hr; cbn.
  - intros H; simplify_eq. repeat split; eauto.
    exists []. by rewrite app_nil_r.
  - destruct (whisper_model a) as [m|] eqn:Hm; cbn.
    + intros H; simplify_eq; cbn. repeat split; eauto.
    + destruct loaded as [m|e]; cbn; intros H; simplify_eq; cbn;
        repeat split; eauto; exists []; by rewrite app_nil_r.
Qed.

(** ** Control routes *)



(** C9: [stop()] while the session is idle answers [{success: false}], a
    reply and not an exception, and changes nothing. *)
Theorem stop_while_idle_is_refused (a : TranscriptionApp) :
  is_recording a = false ->
  step a ApiStop = Some (a, Reply (Ok (mkResponse false (lit "Not recording")))).
Proof.
  intros Hr. unfold step, stop_recording.
  unfold mbind, prog_bind, mret, prog_ret, gets. cbn. rewrite Hr. reflexivity.
Qed.

Lemma stop_while_idle_is_refused_witness :
  is_recording loaded_app = false
  /\ step loaded_app ApiStop
     = Some (loaded_app, Reply (Ok (mkResponse false (lit "Not recording")))).
Proof.
  split; [reflexivity|].
  apply (stop_while_idle_is_refused loaded_app). reflexivity.
Defined.

(** ** The [confidence] field *)

Lemma entry_of_confidence (a : TranscriptionApp) (now : datetime) (c : chunk)
    (e : pydict) :
  entry_of a now c = Some e -> confidence_zero e.
Proof.
  unfold entry_of, confidence_zero. intros H.
  destruct (transcription a c) as [[result text]|]; [|discriminate].
  cbn in H. simplify_eq.
  rewrite lookup_insert_ne by discriminate.
  unfold new_entry. rewrite lookup_insert_ne by discriminate.
  rewrite lookup_insert_eq. reflexivity.
Qed.

Lemma confidence_step (a a' : TranscriptionApp) (l : label) (o : obs) :
  step a l = Some (a', o) ->
  Forall confidence_zero (transcript_buffer a)
  /\ Forall published_confidence_zero (emitted a) ->
  Forall confidence_zero (transcript_buffer a')
  /\ Forall published_confidence_zero (emitted a').
Proof.
  intros Hs [Ht He].
  assert (Hstatus : forall evs,
    Forall (fun ev => exists s, ev = StatusUpdate s) evs ->
    Forall published_confidence_zero evs).
  { intros evs H. eapply Forall_impl; [exact H|]. intros ev [s ->]. exact I. }
  destruct l as [t loaded| |i io|j now].
  - apply step_start in Hs as (_ & Hb & (evs & -> & Hev) & _).
    split.
    + destruct Hb as [-> | ->]; [exact Ht | constructor].
    + apply Forall_app. auto.
  - apply step_stop in Hs as (_ & _ & -> & _ & _ & _ & _ & (evs & -> & Hev) & _).
    split; [exact Ht|]. apply Forall_app. auto.
  - apply step_capture in Hs as (-> & -> & _). auto.
  - apply step_process in Hs
      as (_ & _ & _ & _ & [(_ & _ & -> & ->) | (c & _ & _ & -> & ->)]);
      [auto|].
    destruct (entry_of a now c) as [e|] eqn:Hen; cbn; rewrite ?app_nil_r; [|auto].
    apply entry_of_confidence in Hen.
    split; apply Forall_app; split; auto.
Qed.

(** C10: along every schedule from the initial state, every entry in the
    transcript buffer and every entry published to the subscribers has a
    [confidence] field equal to [0.0]: [getattr] on the engine's result, a
    dictionary, finds no such attribute and returns its default, whatever
    the keys of the result. *)
Theorem confidence_is_always_zero
    (diarization_available : bool) (tr : list label)
    (a : TranscriptionApp) (os : list obs) :
  run (init_app diarization_available) tr = Some (a, os) ->
  Forall confidence_zero (transcript_buffer a)
  /\ Forall published_confidence_zero (emitted a).
Proof.
  assert (Hgen : forall tr a0 a os,
    run a0 tr = Some (a, os) ->
    Forall confidence_zero (transcript_buffer a0)
    /\ Forall published_confidence_zero (emitted a0) ->
    Forall confidence_zero (transcript_buffer a)
    /\ Forall published_confidence_zero (emitted a)).
  { clear. induction tr as [|l tr IH]; intros a0 a os Hrun Hinv.
    - cbn in Hrun. by simplify_eq.
    - cbn in Hrun.
      destruct (step a0 l) as [[a1 o]|] eqn:Hs; [|discriminate]. cbn in Hrun.
      destruct (run a1 tr) as [[a2 os']|] eqn:Hr; [|discriminate]. cbn in Hrun.
      simplify_eq. eapply IH; [exact Hr|]. eapply confidence_step; eauto. }
  intros Hrun. eapply Hgen; [exact Hrun|]. cbn. split; constructor.
Qed.

(** ** Runs *)

Lemma run_app (tr1 tr2 : list label) : forall a,
  run a (tr1 ++ tr2) =
  match run a tr1 with
  | Some (a1, os1) =>
      match run a1 tr2 with
      | Some (a2, os2) => Some (a2, os1 ++ os2)
      | None => None
      end
  | None => None
  end.
Proof.
  induction tr1 as [|l tr1 IH]; intros a; cbn.
  - destruct (run a tr2) as [[a2 os2]|]; reflexivity.
  - destruct (step a l) as [[a1 o]|]; cbn; [|reflexivity].
    rewrite IH. destruct (run a1 tr1) as [[a1' os1]|]; cbn; [|reflexivity].
    destruct (run a1' tr2) as [[a2 os2]|]; reflexivity.
Qed.

Lemma step_get (a : TranscriptionApp) (j : nat) (now : datetime)
    (c : chunk) (q : list chunk) :
  processing_threads a !! j = Some ProcGet ->
  audio_queue a = c :: q ->
  exists a',
    step a (Process j now) = Some (a', Got c now)
    /\ processing_threads a' !! j = Some ProcTest
    /\ audio_queue a' = q
    /\ transcript_buffer a' = transcript_buffer a ++ option_list (entry_of a now c)
    /\ emitted a' = emitted a ++ map NewTranscript (option_list (entry_of a now c))
    /\ is_recording a' = is_recording a
    /\ same_engines a a'.
Proof.
  intros Hj Hq.
  assert (Hlt : (j < length (processing_threads a))%nat)
    by (eapply lookup_lt_Some; eauto).
  pose proof (process_chunk_spec now c (set_audio_queue q a)) as (Ht & He & Hc).
  rewrite (entry_of_ext a (set_audio_queue q a)) in Ht, He by reflexivity.
  destruct Hc as (H1 & H2 & H3 & H4 & H5 & H6 & H7 & H8 & H9).
  cbn in H1, H2, H3, H4, H5, H6, H7, H8, H9, Ht, He.
  eexists. split.
  - cbn [step]. rewrite Hj. cbn [mbind option_bind process_step].
    rewrite Hq. cbn [mbind option_bind]. reflexivity.
  - unfold same_engines.
    cbn [processing_threads set_processing_threads audio_queue transcript_buffer
         emitted is_recording whisper_model diarization_pipeline
         DIARIZATION_AVAILABLE].
    rewrite list_lookup_insert_eq by (rewrite H9; exact Hlt).
    repeat split; eauto.
Qed.

Lemma step_test_busy (a : TranscriptionApp) (j : nat) (now : datetime) :
  processing_threads a !! j = Some ProcTest ->
  is_recording a || negb (bool_decide (audio_queue a = [])) = true ->
  step a (Process j now)
  = Some (set_processing_threads (<[j:=ProcGet]> (processing_threads a)) a, Tau).
Proof.
  intros Hj Hb. unfold step. rewrite Hj. cbn. rewrite Hb. reflexivity.
Qed.

Lemma step_test_done (a : TranscriptionApp) (j : nat) (now : datetime) :
  processing_threads a !! j = Some ProcTest ->
  is_recording a = false ->
  audio_queue a = [] ->
  step a (Process j now)
  = Some (set_processing_threads (<[j:=ProcExit]> (processing_threads a))
            (print LogProcessingCompleted a), Tau).
Proof.
  intros Hj Hr Hq. unfold step. rewrite Hj. cbn. rewrite Hr, Hq. reflexivity.
Qed.

(** One iteration of the worker on a queue that is not empty. *)
Lemma worker_iteration (a : TranscriptionApp) (j : nat) (now : datetime)
    (c : chunk) (q : list chunk) :
  processing_threads a !! j = Some ProcTest ->
  audio_queue a = c :: q ->
  exists a',
    run a [Process j now; Process j now] = Some (a', [Tau; Got c now])
    /\ processing_threads a' !! j = Some ProcTest
    /\ audio_queue a' = q
    /\ transcript_buffer a' = transcript_buffer a ++ option_list (entry_of a now c)
    /\ emitted a' = emitted a ++ map NewTranscript (option_list (entry_of a now c))
    /\ is_recording a' = is_recording a
    /\ same_engines a a'.
Proof.
  intros Hj Hq.
  assert (Hlt : (j < length (processing_threads a))%nat)
    by (eapply lookup_lt_Some; eauto).
  set (a1 := set_processing_threads (<[j:=ProcGet]> (processing_threads a)) a).
  destruct (step_get a1 j now c q) as (a' & Hs & Hj' & Hq' & Ht & He & Hr & Hen).
  { cbn. by apply list_lookup_insert_eq. }
  { exact Hq. }
  exists a'. split.
  - cbn [run]. rewrite step_test_busy; [|exact Hj|by rewrite Hq, orb_true_r].
    cbn [mbind option_bind]. fold a1. rewrite Hs. reflexivity.
  - rewrite (entry_of_ext a a1) in Ht, He by reflexivity.
    destruct Hen as (E1 & E2 & E3). unfold same_engines.
    cbn in Ht, He, Hr, E1, E2, E3.
    repeat split; assumption.
Qed.

Lemma entries_of_ext (a a' : TranscriptionApp) (q : list (chunk * datetime)) :
  same_engines a a' -> entries_of a' q = entries_of a q.
Proof.
  intros (Hw & Hd & Ha). unfold entries_of.
  induction q as [|[c now] q IH]; [reflexivity|].
  cbn. rewrite (entry_of_ext a a') by assumption. by rewrite IH.
Qed.

Lemma entries_of_cons (a : TranscriptionApp) (c : chunk) (now : datetime)
    (q : list (chunk * datetime)) :
  entries_of a ((c, now) :: q) = option_list (entry_of a now c) ++ entries_of a q.
Proof. unfold entries_of. cbn. destruct (entry_of a now c); reflexivity. Qed.

Lemma entries_of_app (a : TranscriptionApp) (q1 q2 : list (chunk * datetime)) :
  entries_of a (q1 ++ q2) = entries_of a q1 ++ entries_of a q2.
Proof. unfold entries_of. apply omap_app. Qed.

(** The worker alone, taking the chunks [q] off the queue one after the
    other. *)
Lemma worker_run (j : nat) (q : list (chunk * datetime)) :
  forall (rest : list chunk) (a : TranscriptionApp),
  processing_threads a !! j = Some ProcTest ->
  audio_queue a = map fst q ++ rest ->
  exists a' os,
    run a (worker_labels j (map snd q)) = Some (a', os)
    /\ gots os = q
    /\ puts os = []
    /\ processing_threads a' !! j = Some ProcTest
    /\ audio_queue a' = rest
    /\ transcript_buffer a' = transcript_buffer a ++ entries_of a q
    /\ emitted a' = emitted a ++ map NewTranscript (entries_of a q)
    /\ is_recording a' = is_recording a
    /\ same_engines a a'.
Proof.
  induction q as [|[c now] q IH]; intros rest a Hj Hq.
  - exists a, []. cbn. rewrite !app_nil_r. repeat split; auto.
  - cbn in Hq.
    destruct (worker_iteration a j now c (map fst q ++ rest) Hj Hq)
      as (a1 & Hrun1 & Hj1 & Hq1 & Ht1 & He1 & Hr1 & Hen1).
    destruct (IH rest a1 Hj1 Hq1)
      as (a' & os & Hrun & Hg & Hp & Hj' & Hq' & Ht & He & Hr & Hen).
    exists a', ([Tau; Got c now] ++ os). split.
    + change (worker_labels j (map snd ((c, now) :: q)))
        with ([Process j now; Process j now] ++ worker_labels j (map snd q)).
      rewrite run_app, Hrun1, Hrun. reflexivity.
    + rewrite (entries_of_ext a a1) in Ht, He by exact Hen1.
      rewrite entries_of_cons, map_app.
      rewrite Ht, He, Ht1, He1, <- !app_assoc.
      change (gots ([Tau; Got c now] ++ os)) with ((c, now) :: gots os).
      change (puts ([Tau; Got c now] ++ os)) with (puts os).
      rewrite Hg, Hp.
      destruct Hen as (E1 & E2 & E3), Hen1 as (F1 & F2 & F3).
      unfold same_engines. repeat split; auto; congruence.
Qed.

(** ** Blank chunks *)

Lemma entry_of_blank (a : TranscriptionApp) (now : datetime) (c : chunk)
    (m : whisper) (result : pydict) (s : pystr) :
  whisper_model a = Some m ->
  m (write_wav c) = Ok result ->
  result !! "text" = Some (VStr s) ->
  strip s = [] ->
  entry_of a now c = None.
Proof.
  intros Hm Hr Ht Hs. unfold entry_of, transcription.
  rewrite Hm. cbn. rewrite Hr, Ht, Hs. reflexivity.
Qed.

(** C5: a chunk whose transcription is empty after stripping adds no entry
    to the transcript buffer and publishes nothing.  With the chunks [pre]
    before it and [post] behind it on the queue, the worker ends with the
    entries of [pre] and of [post], in that order, and has published only
    those. *)
Theorem blank_chunk_is_discarded
    (a : TranscriptionApp) (j : nat) (pre post : list (chunk * datetime))
    (c : chunk) (now : datetime) (m : whisper) (result : pydict) (s : pystr) :
  processing_threads a !! j = Some ProcTest ->
  audio_queue a = map fst pre ++ c :: map fst post ->
  whisper_model a = Some m ->
  m (write_wav c) = Ok result ->
  result !! "text" = Some (VStr s) ->
  strip s = [] ->
  exists a' os,
    run a (worker_labels j (map snd pre ++ now :: map snd post)) = Some (a', os)
    /\ gots os = pre ++ (c, now) :: post
    /\ audio_queue a' = []
    /\ transcript_buffer a'
       = transcript_buffer a ++ entries_of a pre ++ entries_of a post
    /\ emitted a'
       = emitted a ++ map NewTranscript (entries_of a pre ++ entries_of a post).
Proof.
  intros Hj Hq Hm Hr Ht Hs.
  destruct (worker_run j (pre ++ (c, now) :: post) [] a Hj)
    as (a' & os & Hrun & Hg & _ & _ & Hq' & Hb & He & _).
  { rewrite app_nil_r, map_app. exact Hq. }
  exists a', os.
  rewrite map_app in Hrun. cbn [map snd] in Hrun.
  rewrite entries_of_app, entries_of_cons in Hb, He.
  rewrite (entry_of_blank a now c m result s) in Hb, He by assumption.
  cbn [option_list List.app] in Hb, He.
  repeat split; assumption.
Qed.

Lemma blank_chunk_is_discarded_witness :
  exists a' os,
    run draining_app
      (worker_labels 0 (map snd [([1], example_now 1)] ++ example_now 2
                        :: map snd [([3], example_now 3)])) = Some (a', os)
    /\ gots os = [([1], example_now 1)] ++ ([2], example_now 2)
                 :: [([3], example_now 3)]
    /\ audio_queue a' = []
    /\ transcript_buffer a'
       = transcript_buffer draining_app
         ++ entries_of draining_app [([1], example_now 1)]
         ++ entries_of draining_app [([3], example_now 3)]
    /\ emitted a'
       = emitted draining_app
         ++ map NewTranscript
              (entries_of draining_app [([1], example_now 1)]
               ++ entries_of draining_app [([3], example_now 3)]).
Proof.
  apply (blank_chunk_is_discarded draining_app 0
           [([1], example_now 1)] [([3], example_now 3)] [2] (example_now 2)
           example_whisper (<["text" := VStr (lit "   ")]> ∅) (lit "   "));
    vm_compute; reflexivity.
Defined.

(** The two entries of that run, spelled out. *)
Example blank_chunk_entries :
  entries_of draining_app [([1], example_now 1)]
  ++ entries_of draining_app [([3], example_now 3)]
  = [ new_entry (example_now 1) (lit "hello") (VFloat 0);
      new_entry (example_now 3) (lit "world") (VFloat 0) ].
Proof. vm_compute. reflexivity. Qed.

(** ** Diarization failures *)

Lemma process_chunk_diarization_error
    (a : TranscriptionApp) (now : datetime) (c : chunk) (m : whisper)
    (result : pydict) (s : pystr) (d : diarizer) (e : exn) :
  whisper_model a = Some m ->
  m (write_wav c) = Ok result ->
  result !! "text" = Some (VStr s) ->
  strip s <> [] ->
  DIARIZATION_AVAILABLE a = true ->
  diarization_pipeline a = Some d ->
  d (write_wav c) = Raise e ->
  process_chunk now c a
  = (Ok tt,
     print (LogTranscribed (take 50 (strip s)))
       (emit (NewTranscript (new_entry now (strip s) (VFloat 0)))
          (set_transcript_buffer
             (transcript_buffer a ++ [new_entry now (strip s) (VFloat 0)])
             (print (LogDiarizationError e) (print LogTranscribing a))))).
Proof.
  intros Hm Hr Ht Hs Hav Hd He.
  unfold_prog. cbn. rewrite Hm. cbn. rewrite Hr. cbn.
  unfold getitem. rewrite Ht. cbn.
  destruct (strip s) as [|x s'] eqn:Hst; [done|]. cbn.
  rewrite Hav, Hd. cbn. rewrite He. cbn. reflexivity.
Qed.

(** C6: when the diarization pipeline raises on a chunk whose
    transcription is not empty, the exception is caught and logged, and the
    entry is appended to the transcript buffer and published all the same,
    with no speaker label; the worker goes on with its loop. *)
Theorem diarization_failure_keeps_entry
    (a : TranscriptionApp) (j : nat) (now : datetime) (c : chunk)
    (q : list chunk) (m : whisper) (result : pydict) (s : pystr)
    (d : diarizer) (e : exn) :
  processing_threads a !! j = Some ProcGet ->
  audio_queue a = c :: q ->
  whisper_model a = Some m ->
  m (write_wav c) = Ok result ->
  result !! "text" = Some (VStr s) ->
  strip s <> [] ->
  DIARIZATION_AVAILABLE a = true ->
  diarization_pipeline a = Some d ->
  d (write_wav c) = Raise e ->
  exists a',
    step a (Process j now) = Some (a', Got c now)
    /\ transcript_buffer a'
       = transcript_buffer a ++ [new_entry now (strip s) (VFloat 0)]
    /\ emitted a'
       = emitted a ++ [NewTranscript (new_entry now (strip s) (VFloat 0))]
    /\ new_entry now (strip s) (VFloat 0) !! "speaker" = Some VNone
    /\ new_entry now (strip s) (VFloat 0) !! "text" = Some (VStr (strip s))
    /\ stdout a'
       = stdout a ++ [LogTranscribing; LogDiarizationError e;
                      LogTranscribed (take 50 (strip s))]
    /\ processing_threads a' !! j = Some ProcTest.
Proof.
  intros Hj Hq Hm Hr Ht Hs Hav Hd He.
  assert (Hlt : (j < length (processing_threads a))%nat)
    by (eapply lookup_lt_Some; eauto).
  eexists. split.
  - unfold step. rewrite Hj. cbn [mbind option_bind process_step]. rewrite Hq.
    rewrite (process_chunk_diarization_error _ now c m result s d e) by assumption.
    cbn [mbind option_bind snd]. reflexivity.
  - cbn [transcript_buffer emitted stdout processing_threads
         set_processing_threads print emit set_transcript_buffer set_audio_queue].
    rewrite <- !app_assoc. cbn [List.app].
    rewrite list_lookup_insert_eq by exact Hlt.
    unfold new_entry.
    rewrite lookup_insert_eq, !lookup_insert_ne, lookup_insert_eq by discriminate.
    repeat split; reflexivity.
Qed.

Lemma diarization_failure_keeps_entry_witness :
  exists a',
    step diarizing_worker_app (Process 0 (example_now 9))
    = Some (a', Got [1] (example_now 9))
    /\ transcript_buffer a'
       = transcript_buffer diarizing_worker_app
         ++ [new_entry (example_now 9) (strip (lit " hello ")) (VFloat 0)]
    /\ emitted a'
       = emitted diarizing_worker_app
         ++ [NewTranscript (new_entry (example_now 9) (strip (lit " hello ")) (VFloat 0))]
    /\ new_entry (example_now 9) (strip (lit " hello ")) (VFloat 0) !! "speaker"
       = Some VNone
    /\ new_entry (example_now 9) (strip (lit " hello ")) (VFloat 0) !! "text"
       = Some (VStr (strip (lit " hello ")))
    /\ stdout a'
       = stdout diarizing_worker_app
         ++ [LogTranscribing; LogDiarizationError (RuntimeError (lit "no token"));
             LogTranscribed (take 50 (strip (lit " hello ")))]
    /\ processing_threads a' !! 0%nat = Some ProcTest.
Proof.
  apply (diarization_failure_keeps_entry diarizing_worker_app 0 (example_now 9)
           [1] [] example_whisper (<["text" := VStr (lit " hello ")]> ∅)
           (lit " hello ") failing_diarizer (RuntimeError (lit "no token")));
    try (vm_compute; reflexivity).
  vm_compute. discriminate.
Defined.

(** ** Draining the queue *)

Lemma step_exit_blocked (a : TranscriptionApp) (j : nat) (now : datetime) :
  processing_threads a !! j = Some ProcExit -> step a (Process j now) = None.
Proof. intros Hj. unfold step. rewrite Hj. reflexivity. Qed.

(** The worker alone, from the head of its loop, once recording has
    stopped: it takes every chunk and then leaves the loop. *)
Lemma drain_from_test (j : nat) (q : list chunk) :
  forall (a : TranscriptionApp) (nows : list datetime),
  is_recording a = false ->
  processing_threads a !! j = Some ProcTest ->
  audio_queue a = q ->
  (2 * length q + 1 <= length nows)%nat ->
  exists a2 os,
    run a (map (Process j) (take (2 * length q + 1) nows)) = Some (a2, os)
    /\ map fst (gots os) = q
    /\ processing_threads a2 !! j = Some ProcExit
    /\ audio_queue a2 = []
    /\ is_recording a2 = false.
Proof.
  induction q as [|c q IH]; intros a nows Hr Hj Hq Hlen.
  - destruct nows as [|n0 nows]; [cbn in Hlen; lia|].
    cbn [length Nat.mul Nat.add take map run].
    rewrite step_test_done by assumption. cbn [mbind option_bind].
    eexists _, _. split; [reflexivity|].
    cbn. rewrite list_lookup_insert_eq by (eapply lookup_lt_Some; eauto).
    repeat split; auto.
  - destruct nows as [|n0 [|n1 nows]]; [cbn in Hlen; lia..|].
    replace (2 * length (c :: q) + 1)%nat with (S (S (2 * length q + 1)))
      by (cbn [length]; lia).
    cbn [take map run].
    rewrite step_test_busy; [|exact Hj|by rewrite Hq, orb_true_r].
    cbn [mbind option_bind].
    set (a1 := set_processing_threads (<[j:=ProcGet]> (processing_threads a)) a).
    destruct (step_get a1 j n1 c q) as (a' & Hs & Hj' & Hq' & _ & _ & Hr' & _).
    { cbn. apply list_lookup_insert_eq. eapply lookup_lt_Some; eauto. }
    { exact Hq. }
    rewrite Hs. cbn [mbind option_bind].
    destruct (IH a' nows) as (a2 & os & Hrun & Hg & Hj2 & Hq2 & Hr2); auto.
    { rewrite Hr'. exact Hr. }
    { cbn [length] in Hlen. lia. }
    rewrite Hrun. cbn [mbind option_bind].
    eexists _, _. split; [reflexivity|].
    change (gots (Tau :: Got c n1 :: os)) with ((c, n1) :: gots os).
    cbn [map fst]. rewrite Hg. repeat split; auto.
Qed.

(** A run of the worker that goes through has not left the loop at any
    earlier point. *)
Lemma run_worker_alive (j : nat) (nows : list datetime) :
  forall (a a2 : TranscriptionApp) (os : list obs),
  run a (map (Process j) nows) = Some (a2, os) ->
  forall k ak osk, (k < length nows)%nat ->
    run a (map (Process j) (take k nows)) = Some (ak, osk) ->
    processing_threads ak !! j <> Some ProcExit.
Proof.
  intros a a2 os Hrun k ak osk Hk Hpre Hexit.
  rewrite <- (take_drop k nows), map_app, run_app, Hpre in Hrun.
  destruct (drop k nows) as [|x rest] eqn:Hd.
  - apply (f_equal length) in Hd. rewrite length_drop in Hd. cbn in Hd. lia.
  - cbn [map run] in Hrun. rewrite step_exit_blocked in Hrun by exact Hexit.
    discriminate.
Qed.

(** C7: the worker loops while the session records or the queue is not
    empty.  [/api/stop] leaves the queue as it is; the worker, whatever its
    program point, then takes every buffered chunk in order and leaves its
    loop only when the queue is empty: at that point the queue is empty and
    the session is idle.  While the session records, the test of the loop
    sends the worker back into the body. *)
Theorem worker_drains_queue_after_stop
    (a a1 : TranscriptionApp) (o : obs) (j : nat) (pc : proc_pc)
    (nows : list datetime) :
  processing_threads a !! j = Some pc ->
  pc <> ProcExit ->
  step a ApiStop = Some (a1, o) ->
  (2 * length (audio_queue a) + 2 <= length nows)%nat ->
  (exists n a2 os,
    audio_queue a1 = audio_queue a
    /\ (n <= length nows)%nat
    /\ run a1 (map (Process j) (take n nows)) = Some (a2, os)
    /\ map fst (gots os) = audio_queue a
    /\ processing_threads a2 !! j = Some ProcExit
    /\ audio_queue a2 = []
    /\ is_recording a2 = false
    /\ forall k ak osk, (k < n)%nat ->
         run a1 (map (Process j) (take k nows)) = Some (ak, osk) ->
         processing_threads ak !! j <> Some ProcExit)
  /\ (is_recording a = true -> pc = ProcTest -> forall now,
        exists a', step a (Process j now) = Some (a', Tau)
                   /\ processing_threads a' !! j = Some ProcGet).
Proof.
  intros Hj Hpc Hstop Hlen. split.
  2:{ intros Hr -> now. rewrite step_test_busy; [|exact Hj|by rewrite Hr].
      eexists. split; [reflexivity|]. cbn.
      apply list_lookup_insert_eq. eapply lookup_lt_Some; eauto. }
  apply step_stop in Hstop as (Hr1 & Hq1 & _ & _ & _ & Hp1 & _).
  rewrite <- Hp1 in Hj. rewrite <- Hq1 in Hlen |- *.
  assert (Hlt : (j < length (processing_threads a1))%nat)
    by (eapply lookup_lt_Some; eauto).
  assert (Hmain : exists n a2 os,
    (n <= length nows)%nat
    /\ run a1 (map (Process j) (take n nows)) = Some (a2, os)
    /\ map fst (gots os) = audio_queue a1
    /\ processing_threads a2 !! j = Some ProcExit
    /\ audio_queue a2 = []
    /\ is_recording a2 = false).
  { destruct pc; [| | |done].
    - (* before the loop *)
      destruct nows as [|n0 nows]; [cbn in Hlen; lia|].
      set (a' := set_processing_threads
                   (<[j:=ProcTest]> (processing_threads (print LogProcessingStarted a1)))
                   (print LogProcessingStarted a1)).
      destruct (drain_from_test j (audio_queue a1) a' nows)
        as (a2 & os & Hrun & Hg & Hj2 & Hq2 & Hr2); auto.
      { cbn. by apply list_lookup_insert_eq. }
      { cbn [length] in Hlen. lia. }
      exists (S (2 * length (audio_queue a1) + 1)), a2, (Tau :: os).
      split; [cbn [length] in *; lia|].
      cbn [take map run]. unfold step at 1. rewrite Hj.
      cbn [mbind option_bind process_step]. fold a'. rewrite Hrun.
      repeat split; auto.
    - (* at the test *)
      destruct (drain_from_test j (audio_queue a1) a1 nows)
        as (a2 & os & Hrun & Hg & Hj2 & Hq2 & Hr2); auto; [lia|].
      exists (2 * length (audio_queue a1) + 1)%nat, a2, os.
      repeat split; auto. lia.
    - (* at the get *)
      destruct nows as [|n0 nows]; [cbn in Hlen; lia|].
      destruct (audio_queue a1) as [|c q] eqn:Hq.
      + set (a' := set_processing_threads (<[j:=ProcTest]> (processing_threads a1)) a1).
        destruct (drain_from_test j [] a' nows)
          as (a2 & os & Hrun & Hg & Hj2 & Hq2 & Hr2); auto.
        { cbn. by apply list_lookup_insert_eq. }
        { cbn [length] in *. lia. }
        exists 2%nat, a2, (Tau :: os).
        split; [cbn [length] in *; lia|].
        cbn [take map run]. unfold step at 1. rewrite Hj.
        cbn [mbind option_bind process_step]. rewrite Hq.
        cbn [mbind option_bind]. fold a'.
        cbn [length Nat.mul Nat.add] in Hrun. rewrite Hrun.
        repeat split; auto.
      + destruct (step_get a1 j n0 c q Hj Hq)
          as (a' & Hs & Hj' & Hq' & _ & _ & Hr' & _).
        destruct (drain_from_test j q a' nows)
          as (a2 & os & Hrun & Hg & Hj2 & Hq2 & Hr2); auto.
        { congruence. }
        { cbn [length] in *. lia. }
        exists (S (2 * length q + 1)), a2, (Got c n0 :: os).
        split; [cbn [length] in *; lia|].
        cbn [take map run]. rewrite Hs. cbn [mbind option_bind]. rewrite Hrun.
        change (gots (Got c n0 :: os)) with ((c, n0) :: gots os).
        cbn [map fst]. rewrite Hg. repeat split; auto. }
  destruct Hmain as (n & a2 & os & Hn & Hrun & Hg & Hj2 & Hq2 & Hr2).
  exists n, a2, os. repeat split; auto.
  intros k ak osk Hk Hpre.
  eapply (run_worker_alive j (take n nows) a1 a2 os Hrun k).
  - rewrite length_take. lia.
  - rewrite take_take. replace (k `min` n)%nat with k by lia. exact Hpre.
Qed.

Lemma worker_drains_queue_after_stop_witness :
  (exists n a2 os,
    audio_queue stopped_app = audio_queue recording_app
    /\ (n <= length example_clock)%nat
    /\ run stopped_app (map (Process 0) (take n example_clock)) = Some (a2, os)
    /\ map fst (gots os) = audio_queue recording_app
    /\ processing_threads a2 !! 0%nat = Some ProcExit
    /\ audio_queue a2 = []
    /\ is_recording a2 = false
    /\ forall k ak osk, (k < n)%nat ->
         run stopped_app (map (Process 0) (take k example_clock)) = Some (ak, osk) ->
         processing_threads ak !! 0%nat <> Some ProcExit)
  /\ (is_recording recording_app = true -> ProcGet = ProcTest -> forall now,
        exists a', step recording_app (Process 0 now) = Some (a', Tau)
                   /\ processing_threads a' !! 0%nat = Some ProcGet).
Proof.
  apply (worker_drains_queue_after_stop recording_app stopped_app
           (Reply (Ok (mkResponse true (lit "Transcription stopped"))))
           0 ProcGet example_clock).
  - reflexivity.
  - discriminate.
  - vm_compute. reflexivity.
  - vm_compute. lia.
Defined.

(** ** The example session, run *)

Lemma example_session_summary :
  run_summary (run (init_app false) example_session)
  = Some (example_final,
          [(1, 479232); (2, 479232); (3, 479232)],
          [(1, example_now 2); (2, example_now 4); (3, example_now 6)]).
Proof. vm_compute. reflexivity. Qed.

Lemma example_session_run :
  run (init_app false) example_session = Some (example_final, example_obs).
Proof.
  pose proof example_session_summary as H. unfold example_obs, observed.
  destruct (run (init_app false) example_session) as [[a os]|]; [|discriminate].
  cbn [run_summary] in H. by simplify_eq.
Qed.

Lemma confidence_is_always_zero_witness :
  Forall confidence_zero (transcript_buffer example_final)
  /\ Forall published_confidence_zero (emitted example_final).
Proof.
  apply (confidence_is_always_zero false example_session example_final example_obs).
  exact example_session_run.
Defined.

(** ** The order of the entries *)








(** ** The chunk assembler *)










(** ** A device that cannot be opened *)


Lemma step_proc_start (a : TranscriptionApp) (j : nat) (now : datetime) :
  processing_threads a !! j = Some ProcStart ->
  step a (Process j now)
  = Some (set_processing_threads
            (<[j:=ProcTest]> (processing_threads (print LogProcessingStarted a)))
            (print LogProcessingStarted a), Tau).
Proof. intros Hj. unfold step. rewrite Hj. reflexivity. Qed.

Ltac simpl_fields :=
  cbn [DIARIZATION_AVAILABLE is_recording audio_queue transcript_buffer
       session_id whisper_model diarization_pipeline stream recording_threads
       processing_threads emitted stdout print emit set_is_recording
       set_audio_queue set_transcript_buffer set_session_id set_whisper_model
       set_stream set_recording_threads set_processing_threads].





(** ** The exporter *)

Lemma new_entry_lookups (now : datetime) (text : pystr) (confidence : pyval) :
  new_entry now text confidence !! "timestamp" = Some (VStr (isoformat now))
  /\ new_entry now text confidence !! "text" = Some (VStr text)
  /\ new_entry now text confidence !! "speaker" = Some VNone.
Proof. unfold new_entry. repeat split; by simplify_map_eq. Qed.

(** The line of an entry as [_process_audio] builds it when no diarization
    labels it: the [speaker] key is present and holds [None], so
    [entry.get('speaker', 'Speaker')] returns [None]. *)
Lemma format_entry_new_entry (py_repr : pyval -> pystr) (now : datetime)
    (text : pystr) (confidence : pyval) :
  valid_datetime now = true ->
  format_entry py_repr (new_entry now text confidence)
  = Ok (lit "[" ++ strftime_HMS now ++ lit "] None: " ++ text).
Proof.
  intros Hv.
  destruct (new_entry_lookups now text confidence) as (Hts & Htx & Hsp).
  unfold format_entry, getitem, dict_get. rewrite Hts, Htx, Hsp.
  cbn [mbind res_bind fromisoformat]. rewrite (parse_iso_isoformat now Hv).
  cbn [mbind res_bind mret res_ret py_str].
  rewrite <- ?app_assoc. reflexivity.
Qed.

(** Had the entry no [speaker] key, the default label would show. *)
Lemma format_entry_without_speaker_key (py_repr : pyval -> pystr)
    (now : datetime) (text : pystr) (confidence : pyval) :
  valid_datetime now = true ->
  format_entry py_repr (delete "speaker" (new_entry now text confidence))
  = Ok (lit "[" ++ strftime_HMS now ++ lit "] Speaker: " ++ text).
Proof.
  intros Hv.
  destruct (new_entry_lookups now text confidence) as (Hts & Htx & _).
  unfold format_entry, getitem, dict_get.
  rewrite lookup_delete_eq, !lookup_delete_ne, Hts, Htx by discriminate.
  cbn [mbind res_bind fromisoformat]. rewrite (parse_iso_isoformat now Hv).
  cbn [mbind res_bind mret res_ret py_str].
  rewrite <- ?app_assoc. reflexivity.
Qed.

(** C1: the export of the example session.  The header block is followed
    by one line an entry, in order; the entries have no speaker label, and
    their lines read [None] where the default label [Speaker] was meant. *)
Theorem export_prints_None_for_unlabelled_entries (py_repr : pyval -> pystr) :
  format_transcript py_repr (example_now 30) example_final
  = Ok (lit "Advanced Audio Transcript
==================================================
Generated: 2024-01-01 10:00:30
Session ID: session_1700000001
Total Entries: 2

--- TRANSCRIPT ---

[10:00:02] None: hello
[10:00:06] None: world").
Proof. vm_compute. reflexivity. Qed.

(** ** [str.strip] *)

Lemma lstrip_cases (s : pystr) :
  lstrip s = [] \/ exists c s', lstrip s = c :: s' /\ is_space c = false.
Proof.
  induction s as [|c s IH]; [by left|].
  cbn. destruct (is_space c) eqn:Hc; [exact IH|]. right. eauto.
Qed.

Lemma lstrip_snoc (s : pystr) (c : N) :
  is_space c = false -> lstrip (s ++ [c]) = lstrip s ++ [c].
Proof.
  intros Hc. induction s as [|d s IH]; cbn.
  - by rewrite Hc.
  - destruct (is_space d); [exact IH|reflexivity].
Qed.

Lemma rstrip_cons (c : N) (s : pystr) :
  is_space c = false -> rstrip (c :: s) = c :: rstrip s.
Proof.
  intros Hc. unfold rstrip. cbn [rev].
  rewrite lstrip_snoc by exact Hc. rewrite rev_app_distr. reflexivity.
Qed.

Lemma rstrip_last (s : pystr) :
  rstrip s = [] \/ exists c, last (rstrip s) = Some c /\ is_space c = false.
Proof.
  unfold rstrip. destruct (lstrip_cases (rev s)) as [-> | (c & s' & -> & Hc)].
  - by left.
  - right. exists c. split; [|exact Hc]. cbn [rev]. apply last_snoc.
Qed.

(** What [strip] returns is empty or trimmed. *)
Lemma strip_trimmed (s : pystr) : str_truthy (strip s) = true -> trimmed (strip s).
Proof.
  unfold strip. intros Ht.
  destruct (lstrip_cases s) as [E | (c & s' & E & Hc)]; rewrite E in Ht |- *.
  - discriminate.
  - rewrite rstrip_cons in Ht |- * by exact Hc. split.
    + exists c. auto.
    + destruct (rstrip_last s') as [E' | (d & Hd & Hs)].
      * rewrite E'. exists c. auto.
      * exists d. split; [|exact Hs].
        destruct (rstrip s') as [|x t]; [discriminate|]. exact Hd.
Qed.

(** ** The shape of the entries *)

Lemma entry_of_plain (a : TranscriptionApp) (now : datetime) (c : chunk)
    (e : pydict) :
  diarization_pipeline a = None ->
  entry_of a now c = Some e ->
  exists text, trimmed text /\ e = new_entry now text (VFloat 0).
Proof.
  intros Hd He. unfold entry_of, transcription, speaker_label in He.
  rewrite Hd in He.
  destruct (whisper_model a) as [m|]; [|discriminate]. cbn in He.
  destruct (m (write_wav c)) as [result|]; [|discriminate].
  destruct (result !! "text") as [[|s| |]|]; try discriminate.
  destruct (str_truthy (strip s)) eqn:Ht; [|discriminate].
  cbn in He. simplify_eq. exists (strip s). split; [by apply strip_trimmed|].
  destruct (DIARIZATION_AVAILABLE a); by rewrite new_entry_speaker.
Qed.

Lemma published_app (evs evs' : list event) :
  published (evs ++ evs') = published evs ++ published evs'.
Proof. unfold published. apply omap_app. Qed.

Lemma published_status (evs : list event) :
  Forall (fun ev => exists s, ev = StatusUpdate s) evs -> published evs = [].
Proof.
  induction 1 as [|ev evs [s ->] _ IH]; [reflexivity|]. exact IH.
Qed.

Lemma plain_step (T : datetime -> Prop) (a a' : TranscriptionApp)
    (l : label) (o : obs) :
  clock_in T l ->
  plain_state T a ->
  step a l = Some (a', o) ->
  plain_state T a'.
Proof.
  intros Hl (Hd & Ht & He) Hs. unfold plain_state.
  destruct l as [t loaded| |i io|j now].
  - apply step_start in Hs as (_ & Hb & (evs & -> & Hev) & -> & _).
    rewrite published_app, (published_status evs Hev), app_nil_r.
    repeat split; auto. destruct Hb as [-> | ->]; [exact Ht|constructor].
  - apply step_stop in Hs
      as (_ & _ & -> & _ & _ & _ & (_ & -> & _) & (evs & -> & Hev) & _).
    rewrite published_app, (published_status evs Hev), app_nil_r. auto.
  - apply step_capture in Hs as (-> & -> & _ & (_ & -> & _) & _). auto.
  - apply step_process in Hs
      as (_ & _ & _ & (_ & -> & _) & [(_ & _ & -> & ->) | (c & _ & _ & -> & ->)]);
      [auto|].
    rewrite published_app.
    destruct (entry_of a now c) as [e|] eqn:Hen; cbn; rewrite ?app_nil_r; [|auto].
    destruct (entry_of_plain a now c e Hd Hen) as (text & Htr & ->).
    assert (plain_entry T (new_entry now text (VFloat 0)))
      by (exists now, text; auto).
    repeat split; auto; apply Forall_app; auto.
Qed.

Lemma plain_run (T : datetime -> Prop) (tr : list label) :
  forall (a a' : TranscriptionApp) (os : list obs),
  Forall (clock_in T) tr ->
  plain_state T a ->
  run a tr = Some (a', os) ->
  plain_state T a'.
Proof.
  induction tr as [|l tr IH]; intros a a' os Hok Hinv Hrun.
  - cbn in Hrun. by simplify_eq.
  - cbn in Hrun. apply Forall_cons in Hok as [Hl Hok].
    destruct (step a l) as [[a1 o]|] eqn:Hs; [|discriminate]. cbn in Hrun.
    destruct (run a1 tr) as [[a2 os']|] eqn:Hr; [|discriminate]. cbn in Hrun.
    simplify_eq. apply (IH a1 a' os' Hok); [|exact Hr].
    eapply plain_step; eauto.
Qed.

Lemma plain_init (T : datetime -> Prop) (diarization_available : bool) :
  plain_state T (init_app diarization_available).
Proof. repeat split; constructor. Qed.

(** ** Entries from the initial state *)

(** X1: the diarization pipeline is never loaded.  Along every schedule
    from the initial state the pipeline stays [None], and every entry, in
    the buffer or pushed to the subscribers, has the speaker [None]. *)
Theorem speaker_is_never_set
    (diarization_available : bool) (tr : list label)
    (a : TranscriptionApp) (os : list obs) :
  run (init_app diarization_available) tr = Some (a, os) ->
  diarization_pipeline a = None
  /\ Forall (fun e : pydict => e !! "speaker" = Some VNone) (transcript_buffer a)
  /\ Forall (fun e : pydict => e !! "speaker" = Some VNone) (published (emitted a)).
Proof.
  intros Hrun.
  destruct (plain_run (fun _ => True) tr (init_app diarization_available) a os) as (Hd & Ht & He);
    [apply Forall_forall; by intros [] | apply plain_init | exact Hrun |].
  assert (Hp : forall e, plain_entry (fun _ => True) e -> e !! "speaker" = Some VNone).
  { intros e (now & text & _ & _ & ->). apply new_entry_lookups. }
  repeat split; [exact Hd|..]; eapply Forall_impl; eauto.
Qed.

Lemma speaker_is_never_set_witness :
  diarization_pipeline example_final = None
  /\ Forall (fun e : pydict => e !! "speaker" = Some VNone)
       (transcript_buffer example_final)
  /\ Forall (fun e : pydict => e !! "speaker" = Some VNone)
       (published (emitted example_final)).
Proof.
  apply (speaker_is_never_set false example_session example_final example_obs).
  exact example_session_run.
Defined.

(** X2: along every schedule from the initial state, the text of every
    entry is a string that is not empty and neither starts nor ends with
    whitespace. *)
Theorem entry_text_is_trimmed
    (diarization_available : bool) (tr : list label)
    (a : TranscriptionApp) (os : list obs) :
  run (init_app diarization_available) tr = Some (a, os) ->
  Forall (fun e : pydict =>
            exists text, e !! "text" = Some (VStr text) /\ trimmed text)
    (transcript_buffer a).
Proof.
  intros Hrun.
  destruct (plain_run (fun _ => True) tr (init_app diarization_available) a os) as (_ & Ht & _);
    [apply Forall_forall; by intros [] | apply plain_init | exact Hrun |].
  eapply Forall_impl; [exact Ht|].
  intros e (now & text & _ & Htr & ->). exists text. split; [|exact Htr].
  apply new_entry_lookups.
Qed.

Lemma entry_text_is_trimmed_witness :
  Forall (fun e : pydict =>
            exists text, e !! "text" = Some (VStr text) /\ trimmed text)
    (transcript_buffer example_final).
Proof.
  apply (entry_text_is_trimmed false example_session example_final example_obs).
  exact example_session_run.
Defined.

(** ** The export *)

Lemma format_entries_plain (py_repr : pyval -> pystr) (buf : list pydict) :
  Forall (plain_entry (fun d => valid_datetime d = true)) buf ->
  exists lines,
    format_entries py_repr buf = Ok lines
    /\ Forall2 (fun e l => exists now text,
                  e = new_entry now text (VFloat 0)
                  /\ l = unlabelled_line now text)
         buf lines.
Proof.
  induction 1 as [|e buf (now & text & Hv & _ & ->) _ (lines & Hl & Hf)].
  - exists []. split; [reflexivity|constructor].
  - exists (unlabelled_line now text :: lines). split.
    + cbn [format_entries]. rewrite (format_entry_new_entry _ _ _ _ Hv), Hl.
      reflexivity.
    + constructor; [|exact Hf]. eauto.
Qed.

(** X3: in every state reached from the initial state under a clock that
    returns valid datetimes, the export does not raise.  With an empty
    buffer it answers [{success: false}]; otherwise it sends a file named
    [transcript_<YYYYMMDD_HHMMSS>.txt] whose content is the header followed
    by one line for each entry, in order, each reading
    [[HH:MM:SS] None: <text>] with the time and text of its entry. *)
Theorem export_of_reachable_state
    (py_repr : pyval -> pystr) (diarization_available : bool)
    (tr : list label) (a : TranscriptionApp) (os : list obs)
    (now now' : datetime) :
  Forall (clock_in (fun d => valid_datetime d = true)) tr ->
  run (init_app diarization_available) tr = Some (a, os) ->
  (transcript_buffer a = []
   /\ export_transcript py_repr now now' a
      = Ok (ExportJson (mkResponse false (lit "No transcript data"))))
  \/ (transcript_buffer a <> []
      /\ exists lines,
           export_transcript py_repr now now' a
           = Ok (ExportFile
                   (lit "transcript_" ++ strftime_compact now ++ lit ".txt")
                   (join_lines
                      (header now' (session_id a) (length (transcript_buffer a))
                       ++ lines)))
           /\ Forall2 (fun e l => exists t text,
                         e = new_entry t text (VFloat 0)
                         /\ l = unlabelled_line t text)
                (transcript_buffer a) lines).
Proof.
  intros Hok Hrun.
  destruct (plain_run _ tr (init_app diarization_available) a os Hok
              (plain_init _ _) Hrun) as (_ & Ht & _).
  destruct (format_entries_plain py_repr _ Ht) as (lines & Hl & Hf).
  unfold export_transcript, format_transcript.
  destruct (transcript_buffer a) as [|e buf] eqn:Hb; [by left|].
  right. split; [discriminate|]. exists lines. split; [|exact Hf].
  rewrite Hl. reflexivity.
Qed.

Lemma example_session_clock_ok :
  Forall (clock_in (fun d => valid_datetime d = true)) example_session.
Proof.
  assert (Hc : forall b, Forall (clock_in (fun d => valid_datetime d = true))
                           (capture_chunk 0 b)).
  { intros b. unfold capture_chunk. apply Forall_concat.
    apply Forall_forall. intros x Hx.
    apply list_elem_of_In, repeat_spec in Hx. subst x.
    repeat constructor. }
  unfold example_session.
  apply Forall_app; split; [repeat constructor|].
  apply Forall_app; split; [apply Hc|].
  apply Forall_app; split; [apply Hc|].
  apply Forall_app; split; [apply Hc|].
  repeat constructor.
Qed.

Lemma export_of_reachable_state_witness :
  (transcript_buffer example_final = []
   /\ export_transcript (fun _ => []) (example_now 30) (example_now 31) example_final
      = Ok (ExportJson (mkResponse false (lit "No transcript data"))))
  \/ (transcript_buffer example_final <> []
      /\ exists lines,
           export_transcript (fun _ => []) (example_now 30) (example_now 31)
             example_final
           = Ok (ExportFile
                   (lit "transcript_" ++ strftime_compact (example_now 30)
                    ++ lit ".txt")
                   (join_lines
                      (header (example_now 31) (session_id example_final)
                         (length (transcript_buffer example_final))
                       ++ lines)))
           /\ Forall2 (fun e l => exists t text,
                         e = new_entry t text (VFloat 0)
                         /\ l = unlabelled_line t text)
                (transcript_buffer example_final) lines).
Proof.
  apply (export_of_reachable_state (fun _ => []) false example_session
           example_final example_obs).
  - exact example_session_clock_ok.
  - exact example_session_run.
Defined.

(** ** Audio devices *)

Lemma StronglySorted_snoc (l : list nat) (n : nat) :
  StronglySorted lt l -> Forall (fun i => (i < n)%nat) l ->
  StronglySorted lt (l ++ [n]).
Proof.
  induction 1 as [|i l Hs IH Hall]; intros Hlt; cbn.
  - repeat constructor.
  - apply Forall_cons in Hlt as [Hi Hlt]. constructor; [by apply IH|].
    apply Forall_app. split; [exact Hall|]. by constructor.
Qed.

Lemma devices_upto (audio : list device_info) (n : nat) :
  (n <= length audio)%nat ->
  let devices :=
    foldl (fun devices i =>
             match audio !! i with
             | Some info =>
                 if 0 <? maxInputChannels info then
                   devices ++ [mkDevice i (info_name info) (maxInputChannels info)]
                 else devices
             | None => devices
             end)
          [] (seq 0 n) in
  (forall d, d ∈ devices <->
     (index d < n)%nat
     /\ exists info, audio !! index d = Some info
          /\ 0 < maxInputChannels info
          /\ name d = info_name info
          /\ channels d = maxInputChannels info)
  /\ StronglySorted lt (map index devices).
Proof.
  induction n as [|n IH]; intros Hn devices.
  - subst devices. cbn. split; [|constructor].
    intros d. split; [by intros ?%elem_of_nil | intros [? _]; lia].
  - destruct (IH ltac:(lia)) as (Hin & Hs). clear IH.
    subst devices. rewrite seq_S, foldl_app. cbn [foldl Nat.add].
    set (prev := foldl _ [] (seq 0 n)) in *.
    destruct (audio !! n) as [info|] eqn:Hi;
      [|apply lookup_ge_None in Hi; lia].
    destruct (0 <? maxInputChannels info) eqn:Hpos.
    + apply Z.ltb_lt in Hpos. split.
      * intros d. rewrite elem_of_app, Hin, list_elem_of_singleton. split.
        -- intros [(Hlt & H) | ->]; [split; [lia|exact H]|].
           cbn. split; [lia|]. exists info. auto.
        -- intros (Hlt & info' & Hl & Hp & Hnm & Hch).
           destruct (decide (index d = n)) as [E|E].
           ++ right. rewrite E, Hi in Hl. simplify_eq.
              destruct d; cbn in *; congruence.
           ++ left. split; [lia|]. eauto.
      * rewrite map_app. cbn [map index].
        apply StronglySorted_snoc; [exact Hs|].
        apply Forall_forall. intros i Hi'.
        apply list_elem_of_fmap in Hi' as (d & -> & Hd).
        apply Hin in Hd. lia.
    + apply Z.ltb_ge in Hpos. split; [|exact Hs].
      intros d. rewrite Hin. split.
      * intros (Hlt & H). split; [lia|exact H].
      * intros (Hlt & info' & Hl & Hp & Hrest). split; [|eauto].
        destruct (decide (index d = n)) as [E|E]; [|lia].
        rewrite E, Hi in Hl. simplify_eq. lia.
Qed.

(** X4: [get_audio_devices] lists exactly the devices of the host that
    have an input channel, each with its own index, name and channel count,
    in increasing order of index. *)
Theorem get_audio_devices_lists_inputs (audio : list device_info) :
  (forall d, d ∈ get_audio_devices audio <->
     exists info, audio !! index d = Some info
       /\ 0 < maxInputChannels info
       /\ name d = info_name info
       /\ channels d = maxInputChannels info)
  /\ StronglySorted lt (map index (get_audio_devices audio)).
Proof.
  destruct (devices_upto audio (length audio) ltac:(lia)) as (Hin & Hs).
  split; [|exact Hs].
  intros d. unfold get_audio_devices. rewrite Hin. split.
  - intros (_ & H). exact H.
  - intros (info & Hl & H). split; [|eauto]. eapply lookup_lt_Some; eauto.
Qed.

(** ** Starting and stopping *)

Lemma step_start_loaded (a : TranscriptionApp) (t : Z) (loaded : res whisper)
    (m : whisper) :
  is_recording a = false ->
  whisper_model a = Some m ->
  step a (ApiStart t loaded) = Some (started t a, reply_started).
Proof.
  intros Hr Hm.
  unfold step, start_recording, start_transcription.
  unfold mbind, prog_bind, mret, prog_ret, gets, modify.
  repeat (cbn -[lit str_of_int]; rewrite ?Hr, ?Hm). reflexivity.
Qed.


Lemma step_stop_refused (a : TranscriptionApp) :
  is_recording a = false ->
  step a ApiStop = Some (a, Reply (Ok (mkResponse false (lit "Not recording")))).
Proof.
  intros Hr. unfold step, stop_recording.
  unfold mbind, prog_bind, mret, prog_ret, gets. cbn. rewrite Hr. reflexivity.
Qed.

(** X5: the first [/api/start] of an application without its model loads
    the model and then raises [UnboundLocalError] out of [load_models]: the
    request fails, the session stays idle, no thread is started, nothing is
    pushed, and the session id and the transcript are untouched.  The model
    stays loaded, so the next [/api/start] succeeds. *)
Theorem first_start_raises_second_succeeds
    (a : TranscriptionApp) (t t' : Z) (m : whisper) (loaded' : res whisper) :
  is_recording a = false ->
  whisper_model a = None ->
  exists a1,
    step a (ApiStart t (Ok m))
    = Some (a1, Reply (Raise (UnboundLocalError "DIARIZATION_AVAILABLE")))
    /\ is_recording a1 = false
    /\ whisper_model a1 = Some m
    /\ diarization_pipeline a1 = diarization_pipeline a
    /\ session_id a1 = session_id a
    /\ transcript_buffer a1 = transcript_buffer a
    /\ audio_queue a1 = audio_queue a
    /\ recording_threads a1 = recording_threads a
    /\ processing_threads a1 = processing_threads a
    /\ emitted a1 = emitted a
    /\ stdout a1 = stdout a ++ [LogStarting; LogLoadingWhisper; LogWhisperLoaded]
    /\ step a1 (ApiStart t' loaded') = Some (started t' a1, reply_started).
Proof.
  intros Hr Hm. eexists. split.
  { unfold step, start_recording, start_transcription, load_models.
    unfold mbind, prog_bind, mret, prog_ret, gets, modify, lift, raise.
    repeat (cbn -[lit str_of_int]; rewrite ?Hr, ?Hm). reflexivity. }
  simpl_fields. rewrite <- !app_assoc.
  repeat split; try reflexivity; try assumption.
  apply (step_start_loaded _ t' loaded' m); simpl_fields; auto.
Qed.

Lemma first_start_raises_second_succeeds_witness :
  exists a1,
    step (init_app false) (ApiStart 1700000000 (Ok example_whisper))
    = Some (a1, Reply (Raise (UnboundLocalError "DIARIZATION_AVAILABLE")))
    /\ is_recording a1 = false
    /\ whisper_model a1 = Some example_whisper
    /\ diarization_pipeline a1 = diarization_pipeline (init_app false)
    /\ session_id a1 = session_id (init_app false)
    /\ transcript_buffer a1 = transcript_buffer (init_app false)
    /\ audio_queue a1 = audio_queue (init_app false)
    /\ recording_threads a1 = recording_threads (init_app false)
    /\ processing_threads a1 = processing_threads (init_app false)
    /\ emitted a1 = emitted (init_app false)
    /\ stdout a1 = stdout (init_app false)
                   ++ [LogStarting; LogLoadingWhisper; LogWhisperLoaded]
    /\ step a1 (ApiStart 1700000001 (Ok example_whisper))
       = Some (started 1700000001 a1, reply_started).
Proof.
  apply (first_start_raises_second_succeeds (init_app false) 1700000000
           1700000001 example_whisper (Ok example_whisper)); reflexivity.
Defined.



(** X7: [/api/stop] is idempotent.  Whatever the state, after one stop the
    session is idle with its stream released, and a second stop is refused
    and changes nothing. *)
Theorem stop_twice_is_stop_once (a : TranscriptionApp) :
  exists a1 r,
    run a [ApiStop; ApiStop]
    = Some (a1, [Reply r; Reply (Ok (mkResponse false (lit "Not recording")))])
    /\ step a ApiStop = Some (a1, Reply r)
    /\ is_recording a1 = false
    /\ (is_recording a = true -> stream a1 = None).
Proof.
  destruct (step a ApiStop) as [[a1 o]|] eqn:Hs.
  2:{ unfold step in Hs. destruct (stop_recording a). discriminate. }
  pose proof Hs as Hs'.
  apply step_stop in Hs' as (Hr & _ & _ & _ & _ & _ & _ & _ & (r & ->)).
  exists a1, r. split; [|split; [reflexivity|split; [exact Hr|]]].
  - cbn [run]. rewrite Hs. cbn [mbind option_bind].
    rewrite (step_stop_refused a1 Hr). reflexivity.
  - intros Hrec. revert Hs. unfold step, stop_recording, stop_transcription.
    unfold mbind, prog_bind, mret, prog_ret, gets, modify.
    cbn. rewrite Hrec. cbn. rewrite Hrec. cbn.
    destruct (stream a) eqn:Hst; cbn; intros H; simplify_eq; simpl_fields;
      [reflexivity|exact Hst].
Qed.

Lemma stop_twice_is_stop_once_witness :
  exists a1 r,
    run capturing_app [ApiStop; ApiStop]
    = Some (a1, [Reply r; Reply (Ok (mkResponse false (lit "Not recording")))])
    /\ step capturing_app ApiStop = Some (a1, Reply r)
    /\ is_recording a1 = false
    /\ (is_recording capturing_app = true -> stream a1 = None).
Proof.
  exact (stop_twice_is_stop_once capturing_app).
Defined.

(** ** What a session publishes *)


Lemma draining_app_run :
  run draining_app (worker_labels 0 (map example_now [1; 2; 3]))
  = Some (drained_app, drained_obs).
Proof. vm_compute. reflexivity. Qed.




Lemma step_keeps_session_id (a a' : TranscriptionApp) (l : label) (o : obs) :
  no_start l -> step a l = Some (a', o) -> session_id a' = session_id a.
Proof.
  intros Hl Hs. destruct l as [t loaded| |i io|j now]; [done|..].
  - by apply step_stop in Hs as (_ & _ & _ & -> & _).
  - unfold step in Hs.
    destruct (recording_threads a !! i) as [pc|]; [|discriminate]. cbn in Hs.
    destruct (record_step pc io a) as [[[pc' o'] a1]|] eqn:Hrs; [|discriminate].
    cbn in Hs. simplify_eq. unfold record_step, on_read_error in Hrs.
    repeat (case_match; try discriminate); by simplify_eq.
  - unfold step in Hs.
    destruct (processing_threads a !! j) as [pc|]; [|discriminate]. cbn in Hs.
    destruct (process_step pc now a) as [[[pc' o'] a1]|] eqn:Hps; [|discriminate].
    cbn in Hs. simplify_eq.
    destruct pc; cbn in Hps; try discriminate.
    + by simplify_eq.
    + case_match; by simplify_eq.
    + destruct (audio_queue a) as [|c q]; simplify_eq; [reflexivity|].
      cbn. pose proof (process_chunk_spec now c (set_audio_queue q a))
        as (_ & _ & (_ & _ & _ & E & _)). exact E.
Qed.

Lemma session_id_no_start (tr : list label) :
  forall (a a' : TranscriptionApp) (os : list obs),
  Forall no_start tr -> run a tr = Some (a', os) ->
  session_id a' = session_id a.
Proof.
  induction tr as [|l tr IH]; intros a a' os Hns Hrun.
  - cbn in Hrun. by simplify_eq.
  - cbn in Hrun. apply Forall_cons in Hns as [Hl Hns].
    destruct (step a l) as [[a1 o]|] eqn:Hs; [|discriminate]. cbn in Hrun.
    destruct (run a1 tr) as [[a2 os']|] eqn:Hr; [|discriminate]. cbn in Hrun.
    simplify_eq. rewrite (IH a1 a' os' Hns Hr).
    eapply step_keeps_session_id; eauto.
Qed.

Lemma worker_labels_no_start (j : nat) (nows : list datetime) :
  Forall no_start (worker_labels j nows).
Proof.
  induction nows as [|n nows IH]; [constructor|].
  change (worker_labels j (n :: nows))
    with (Process j n :: Process j n :: worker_labels j nows).
  constructor; [exact I|]. constructor; [exact I|]. exact IH.
Qed.

(** X9: [/api/start] does not empty the queue.  Chunks left on it by an
    earlier session are transcribed by the new worker into the new
    session: the transcript, emptied by the start, ends with their entries
    under the new session id. *)
Theorem start_keeps_queued_chunks
    (a : TranscriptionApp) (t : Z) (loaded : res whisper) (m : whisper)
    (q : list (chunk * datetime)) (now : datetime) :
  is_recording a = false ->
  whisper_model a = Some m ->
  audio_queue a = map fst q ->
  exists a' os,
    run a (ApiStart t loaded
           :: Process (length (processing_threads a)) now
           :: worker_labels (length (processing_threads a)) (map snd q))
    = Some (a', os)
    /\ audio_queue (started t a) = map fst q
    /\ gots os = q
    /\ audio_queue a' = []
    /\ transcript_buffer a' = entries_of a q
    /\ session_id a' = Some (lit "session_" ++ str_of_int t).
Proof.
  intros Hr Hm Hq.
  set (j := length (processing_threads a)).
  set (a1 := started t a).
  assert (Hj : processing_threads a1 !! j = Some ProcStart).
  { unfold a1, started. simpl_fields. rewrite lookup_app_r by (unfold j; lia).
    unfold j. rewrite Nat.sub_diag. reflexivity. }
  set (a2 := set_processing_threads
               (<[j:=ProcTest]> (processing_threads (print LogProcessingStarted a1)))
               (print LogProcessingStarted a1)).
  destruct (worker_run j q [] a2)
    as (a' & os & Hrun & Hg & _ & _ & Hq' & Ht & _ & _ & _).
  { unfold a2. simpl_fields. apply list_lookup_insert_eq.
    eapply lookup_lt_Some; eauto. }
  { rewrite app_nil_r. exact Hq. }
  assert (Hid : session_id a' = session_id a2).
  { eapply session_id_no_start; [|exact Hrun]. apply worker_labels_no_start. }
  exists a', (reply_started :: Tau :: os). split.
  { cbn [run]. rewrite (step_start_loaded a t loaded m Hr Hm).
    cbn [mbind option_bind]. fold a1.
    rewrite (step_proc_start a1 j now Hj). cbn [mbind option_bind].
    fold a2. rewrite Hrun. reflexivity. }
  rewrite (entries_of_ext a a2) in Ht by (repeat split; reflexivity).
  repeat split; auto.
Qed.

Lemma start_keeps_queued_chunks_witness :
  exists a' os,
    run (set_audio_queue [[1]; [3]] loaded_app)
        (ApiStart 1700000005 (Ok example_whisper)
         :: Process (length (processing_threads (set_audio_queue [[1]; [3]] loaded_app)))
              (example_now 0)
         :: worker_labels
              (length (processing_threads (set_audio_queue [[1]; [3]] loaded_app)))
              (map snd [([1], example_now 1); ([3], example_now 2)]))
    = Some (a', os)
    /\ audio_queue (started 1700000005 (set_audio_queue [[1]; [3]] loaded_app))
       = map fst [([1], example_now 1); ([3], example_now 2)]
    /\ gots os = [([1], example_now 1); ([3], example_now 2)]
    /\ audio_queue a' = []
    /\ transcript_buffer a'
       = entries_of (set_audio_queue [[1]; [3]] loaded_app)
           [([1], example_now 1); ([3], example_now 2)]
    /\ session_id a' = Some (lit "session_" ++ str_of_int 1700000005).
Proof.
  apply (start_keeps_queued_chunks (set_audio_queue [[1]; [3]] loaded_app)
           1700000005 (Ok example_whisper) example_whisper
           [([1], example_now 1); ([3], example_now 2)] (example_now 0));
    reflexivity.
Defined.

(** ** Threads across sessions *)

(** X10: a worker is not ended by [/api/stop].  If [/api/start] follows
    before the worker next tests its loop, the worker finds the session
    recording again and goes on, beside the worker of the new session. *)
Theorem old_worker_survives_restart
    (a : TranscriptionApp) (j : nat) (t : Z) (loaded : res whisper)
    (m : whisper) (now : datetime) :
  whisper_model a = Some m ->
  processing_threads a !! j = Some ProcTest ->
  exists a1 a2 a3 r,
    step a ApiStop = Some (a1, Reply r)
    /\ step a1 (ApiStart t loaded) = Some (a2, reply_started)
    /\ step a2 (Process j now) = Some (a3, Tau)
    /\ processing_threads a3 !! j = Some ProcGet
    /\ processing_threads a3 !! length (processing_threads a) = Some ProcStart
    /\ is_recording a3 = true.
Proof.
  intros Hm Hj.
  assert (Hlt : (j < length (processing_threads a))%nat)
    by (eapply lookup_lt_Some; eauto).
  destruct (step a ApiStop) as [[a1 o]|] eqn:Hs.
  2:{ unfold step in Hs. destruct (stop_recording a). discriminate. }
  pose proof Hs as Hs'.
  apply step_stop in Hs'
    as (Hr & _ & _ & _ & _ & Hp & (Hw & _ & _) & _ & (r & ->)).
  rewrite <- Hp in Hj, Hlt |- *. rewrite <- Hw in Hm.
  assert (Hj2 : processing_threads (started t a1) !! j = Some ProcTest).
  { unfold started. simpl_fields. rewrite lookup_app_l by exact Hlt. exact Hj. }
  exists a1, (started t a1). eexists. exists r. split; [reflexivity|].
  split; [exact (step_start_loaded a1 t loaded m Hr Hm)|].
  split; [apply step_test_busy; [exact Hj2|reflexivity]|].
  unfold started. simpl_fields.
  rewrite list_lookup_insert_eq by (rewrite length_app; cbn; lia).
  rewrite list_lookup_insert_ne by lia.
  rewrite lookup_app_r, Nat.sub_diag by lia. auto.
Qed.

Lemma old_worker_survives_restart_witness :
  exists a1 a2 a3 r,
    step polling_app ApiStop = Some (a1, Reply r)
    /\ step a1 (ApiStart 1700000009 (Ok example_whisper)) = Some (a2, reply_started)
    /\ step a2 (Process 0 (example_now 0)) = Some (a3, Tau)
    /\ processing_threads a3 !! 0%nat = Some ProcGet
    /\ processing_threads a3 !! length (processing_threads polling_app)
       = Some ProcStart
    /\ is_recording a3 = true.
Proof.
  apply (old_worker_survives_restart polling_app 0 1700000009
           (Ok example_whisper) example_whisper (example_now 0)); reflexivity.
Defined.




(** ** Failures while recording *)

(** X12: a read that fails while the session records ends the capture
    thread, with the error logged, and nothing else: the session stays
    recording, nothing is put on the queue, and a worker at its test goes
    back to waiting for chunks. *)
Theorem read_failure_leaves_session_recording
    (a : TranscriptionApp) (i : nat) (audio_buffer : list frame)
    (frame_count : Z) (h : nat) (e : exn) :
  recording_threads a !! i = Some (CapRead audio_buffer frame_count) ->
  stream a = Some h ->
  is_recording a = true ->
  exists a',
    step a (Capture i (IoRead (Raise e))) = Some (a', Tau)
    /\ recording_threads a' !! i = Some CapExit
    /\ is_recording a' = true
    /\ audio_queue a' = audio_queue a
    /\ stdout a' = stdout a ++ [LogRecordingError e]
    /\ forall j now, processing_threads a !! j = Some ProcTest ->
         exists a'', step a' (Process j now) = Some (a'', Tau)
                     /\ processing_threads a'' !! j = Some ProcGet.
Proof.
  intros Hi Hst Hr.
  assert (Hlt : (i < length (recording_threads a))%nat)
    by (eapply lookup_lt_Some; eauto).
  eexists. split.
  { unfold step. rewrite Hi. cbn [mbind option_bind record_step].
    rewrite Hst. unfold on_read_error. rewrite Hr. reflexivity. }
  simpl_fields. rewrite list_lookup_insert_eq by exact Hlt.
  repeat split; auto.
  intros j now Hj. eexists. split.
  - apply step_test_busy; [exact Hj|]. simpl_fields. by rewrite Hr.
  - simpl_fields. apply list_lookup_insert_eq. eapply lookup_lt_Some; eauto.
Qed.

Lemma read_failure_leaves_session_recording_witness :
  exists a',
    step polling_app (Capture 0 (IoRead (Raise device_error))) = Some (a', Tau)
    /\ recording_threads a' !! 0%nat = Some CapExit
    /\ is_recording a' = true
    /\ audio_queue a' = audio_queue polling_app
    /\ stdout a' = stdout polling_app ++ [LogRecordingError device_error]
    /\ forall j now, processing_threads polling_app !! j = Some ProcTest ->
         exists a'', step a' (Process j now) = Some (a'', Tau)
                     /\ processing_threads a'' !! j = Some ProcGet.
Proof.
  apply (read_failure_leaves_session_recording polling_app 0 [] 0 0 device_error);
    reflexivity.
Defined.



(** ** The worker and its engines *)

(** X14: a chunk whose transcription fails is consumed and forgotten.  The
    exception is caught and logged, no entry is appended, nothing is
    pushed, and the worker is back at the head of its loop with the rest of
    the queue. *)
Theorem transcription_failure_is_contained
    (a : TranscriptionApp) (j : nat) (now : datetime) (c : chunk)
    (q : list chunk) (m : whisper) (e : exn) :
  processing_threads a !! j = Some ProcGet ->
  audio_queue a = c :: q ->
  whisper_model a = Some m ->
  transcription_fails m c e ->
  exists a',
    step a (Process j now) = Some (a', Got c now)
    /\ processing_threads a' !! j = Some ProcTest
    /\ audio_queue a' = q
    /\ transcript_buffer a' = transcript_buffer a
    /\ emitted a' = emitted a
    /\ stdout a' = stdout a ++ [LogTranscribing; LogTranscriptionError e]
    /\ is_recording a' = is_recording a.
Proof.
  intros Hj Hq Hm Hf.
  assert (Hlt : (j < length (processing_threads a))%nat)
    by (eapply lookup_lt_Some; eauto).
  assert (Hp : process_chunk now c (set_audio_queue q a)
               = (Ok tt, print (LogTranscriptionError e)
                           (print LogTranscribing (set_audio_queue q a)))).
  { unfold_prog. cbn. rewrite Hm. cbn.
    destruct Hf as [Hf | [(result & Hf & Ht & ->) | (result & v & Hf & Ht & Hv & ->)]];
      rewrite Hf; cbn; [reflexivity|..]; unfold getitem; rewrite Ht; cbn;
      [reflexivity|].
    destruct v; cbn; try reflexivity. by destruct (Hv s). }
  eexists. split.
  { unfold step. rewrite Hj. cbn [mbind option_bind process_step].
    rewrite Hq, Hp. reflexivity. }
  cbn [snd]. simpl_fields. rewrite list_lookup_insert_eq by exact Hlt.
  rewrite <- !app_assoc. repeat split; reflexivity.
Qed.

Lemma transcription_failure_is_contained_witness :
  exists a',
    step failing_worker_app (Process 0 (example_now 1))
    = Some (a', Got [1] (example_now 1))
    /\ processing_threads a' !! 0%nat = Some ProcTest
    /\ audio_queue a' = [[2]]
    /\ transcript_buffer a' = transcript_buffer failing_worker_app
    /\ emitted a' = emitted failing_worker_app
    /\ stdout a'
       = stdout failing_worker_app
         ++ [LogTranscribing;
             LogTranscriptionError (RuntimeError (lit "out of memory"))]
    /\ is_recording a' = is_recording failing_worker_app.
Proof.
  apply (transcription_failure_is_contained failing_worker_app 0 (example_now 1)
           [1] [[2]] failing_whisper (RuntimeError (lit "out of memory")));
    [reflexivity | reflexivity | reflexivity | left; reflexivity].
Defined.

(** X15: when the pipeline returns tracks for a chunk whose transcription
    is not empty, the entry's speaker is ["Speaker "] followed by the label
    of the first track, the entry is appended and pushed, and its line in
    the export reads [[HH:MM:SS] Speaker <label>: <text>]. *)
Theorem first_track_labels_entry
    (py_repr : pyval -> pystr)
    (a : TranscriptionApp) (j : nat) (now : datetime) (c : chunk)
    (q : list chunk) (m : whisper) (result : pydict) (s : pystr)
    (d : diarizer) (seg : segment) (track label : pystr)
    (rest : list (segment * pystr * pystr)) :
  processing_threads a !! j = Some ProcGet ->
  audio_queue a = c :: q ->
  whisper_model a = Some m ->
  m (write_wav c) = Ok result ->
  result !! "text" = Some (VStr s) ->
  strip s <> [] ->
  DIARIZATION_AVAILABLE a = true ->
  diarization_pipeline a = Some d ->
  d (write_wav c) = Ok ((seg, track, label) :: rest) ->
  valid_datetime now = true ->
  exists a' entry,
    step a (Process j now) = Some (a', Got c now)
    /\ transcript_buffer a' = transcript_buffer a ++ [entry]
    /\ emitted a' = emitted a ++ [NewTranscript entry]
    /\ entry !! "speaker" = Some (VStr (lit "Speaker " ++ label))
    /\ entry !! "text" = Some (VStr (strip s))
    /\ format_entry py_repr entry
       = Ok (lit "[" ++ strftime_HMS now ++ lit "] Speaker " ++ label
             ++ lit ": " ++ strip s).
Proof.
  intros Hj Hq Hm Hr Ht Hs Hav Hd Hdr Hv.
  destruct (step_get a j now c q Hj Hq) as (a' & Hstep & _ & _ & Hb & He & _).
  assert (Hen : entry_of a now c
                = Some (<["speaker" := VStr (lit "Speaker " ++ label)]>
                          (new_entry now (strip s) (VFloat 0)))).
  { unfold entry_of, transcription, speaker_label.
    rewrite Hm. cbn. rewrite Hr, Ht, Hav, Hd, Hdr.
    destruct (strip s) as [|x s'] eqn:E; [done|]. reflexivity. }
  rewrite Hen in Hb, He.
  change (option_list (Some ?x)) with [x] in Hb, He.
  change (map NewTranscript [?x]) with [NewTranscript x] in He.
  exists a', (<["speaker" := VStr (lit "Speaker " ++ label)]>
               (new_entry now (strip s) (VFloat 0))).
  destruct (new_entry_lookups now (strip s) (VFloat 0)) as (Hts & Htx & _).
  split; [exact Hstep|]. split; [exact Hb|]. split; [exact He|].
  split; [apply lookup_insert_eq|].
  split; [by rewrite lookup_insert_ne|].
  unfold format_entry, getitem, dict_get.
  rewrite lookup_insert_eq, !lookup_insert_ne, Hts, Htx by discriminate.
  cbn [mbind res_bind fromisoformat]. rewrite (parse_iso_isoformat now Hv).
  cbn [mbind res_bind mret res_ret py_str].
  rewrite <- ?app_assoc. reflexivity.
Qed.

Lemma first_track_labels_entry_witness :
  exists a' entry,
    step labelling_worker_app (Process 0 (example_now 9))
    = Some (a', Got [1] (example_now 9))
    /\ transcript_buffer a' = transcript_buffer labelling_worker_app ++ [entry]
    /\ emitted a' = emitted labelling_worker_app ++ [NewTranscript entry]
    /\ entry !! "speaker" = Some (VStr (lit "Speaker " ++ lit "SPEAKER_00"))
    /\ entry !! "text" = Some (VStr (strip (lit " hello ")))
    /\ format_entry (fun _ => []) entry
       = Ok (lit "[" ++ strftime_HMS (example_now 9) ++ lit "] Speaker "
             ++ lit "SPEAKER_00" ++ lit ": " ++ strip (lit " hello ")).
Proof.
  apply (first_track_labels_entry (fun _ => []) labelling_worker_app 0
           (example_now 9) [1] [] example_whisper
           (<["text" := VStr (lit " hello ")]> ∅) (lit " hello ")
           example_diarizer (mkSegment 0 1) (lit "A") (lit "SPEAKER_00")
           [(mkSegment 1 2, lit "B", lit "SPEAKER_01")]);
    try (vm_compute; reflexivity).
  vm_compute. discriminate.
Defined.

(** ** The assembler, frame by frame *)







(** ** Samples *)

Lemma int16_of_bytes_range (lo hi : Byte.byte) : in_int16 (int16_of_bytes lo hi).
Proof.
  unfold in_int16, int16_of_bytes.
  pose proof (Stdlib.Strings.Byte.to_N_bounded lo).
  pose proof (Stdlib.Strings.Byte.to_N_bounded hi).
  cbv zeta. case_match; [apply Z.ltb_lt in H1|apply Z.ltb_ge in H1]; lia.
Qed.

Lemma frombuffer_int16_range (b : list Byte.byte) (c : chunk) :
  frombuffer_int16 b = Ok c -> Forall in_int16 c.
Proof.
  remember (length b) as n eqn:Hn. revert b c Hn.
  induction n as [n IH] using lt_wf_ind. intros b c Hn H.
  destruct b as [|lo [|hi b]]; cbn in H.
  - simplify_eq. constructor.
  - discriminate.
  - destruct (frombuffer_int16 b) as [c'|e] eqn:Hb; [|discriminate].
    simplify_eq. constructor; [apply int16_of_bytes_range|].
    exact (IH (length b) ltac:(cbn; lia) b c' eq_refl Hb).
Qed.

(** X17: whatever the device returns and however the threads are
    scheduled, every sample of every chunk put on the queue is in the
    range of an [int16]. *)
Theorem queued_samples_are_int16
    (a a' : TranscriptionApp) (tr : list label) (os : list obs) :
  run a tr = Some (a', os) ->
  Forall (Forall in_int16) (puts os).
Proof.
  revert a a' os. induction tr as [|l tr IH]; intros a a' os Hrun.
  - cbn in Hrun. simplify_eq. constructor.
  - cbn in Hrun.
    destruct (step a l) as [[a1 o]|] eqn:Hs; [|discriminate]. cbn in Hrun.
    destruct (run a1 tr) as [[a2 os']|] eqn:Hr; [|discriminate]. cbn in Hrun.
    simplify_eq. specialize (IH a1 a' os' Hr).
    destruct o as [|r|c|c now]; try exact IH.
    change (puts (Put c :: os')) with (c :: puts os').
    constructor; [|exact IH].
    destruct l as [t loaded| |i io|j now].
    + apply step_start in Hs as (_ & _ & _ & _ & _ & (r & Hr')). discriminate.
    + apply step_stop in Hs as (_ & _ & _ & _ & _ & _ & _ & _ & (r & Hr')).
      discriminate.
    + unfold step in Hs.
      destruct (recording_threads a !! i) as [pc|]; [|discriminate]. cbn in Hs.
      destruct (record_step pc io a) as [[[pc' o'] a3]|] eqn:Hrs; [|discriminate].
      cbn in Hs. simplify_eq. unfold record_step, on_read_error in Hrs.
      repeat (case_match; try discriminate); simplify_eq.
      eapply frombuffer_int16_range; eauto.
    + apply step_process in Hs as (_ & _ & _ & _ & [(Ho & _) | (c' & Ho & _)]);
        discriminate.
Qed.

Lemma queued_samples_are_int16_witness :
  Forall (Forall in_int16) (puts example_obs).
Proof.
  apply (queued_samples_are_int16 (init_app false) example_final
           example_session example_obs).
  exact example_session_run.
Defined.

(** ** Session ids *)

Lemma lit_inj (s s' : string) : lit s = lit s' -> s = s'.
Proof.
  unfold lit. intros H.
  rewrite <- (string_of_list_ascii_of_string s),
          <- (string_of_list_ascii_of_string s').
  f_equal. revert H.
  generalize (list_ascii_of_string s') as l'.
  generalize (list_ascii_of_string s) as l.
  induction l as [|x l IH]; intros [|y l'] H; cbn in H; try discriminate.
  - reflexivity.
  - injection H as Hxy Hl. f_equal; [|by apply IH].
    rewrite <- (ascii_N_embedding x), <- (ascii_N_embedding y). by rewrite Hxy.
Qed.

Lemma to_int_not_nil (z : Z) :
  Z.to_int z <> Decimal.Pos Decimal.Nil /\ Z.to_int z <> Decimal.Neg Decimal.Nil.
Proof.
  destruct z as [|p|p]; cbn; split; try discriminate;
    intros H; injection H as H; by apply DecimalPos.Unsigned.to_uint_nonnil in H.
Qed.

Lemma str_of_int_inj (t t' : Z) : str_of_int t = str_of_int t' -> t = t'.
Proof.
  unfold str_of_int. intros H%lit_inj.
  apply DecimalZ.to_int_inj.
  destruct (to_int_not_nil t) as [H1 H2], (to_int_not_nil t') as [H1' H2'].
  pose proof (DecimalString.NilZero.isi _ H1 H2) as E.
  pose proof (DecimalString.NilZero.isi _ H1' H2') as E'.
  rewrite H in E. rewrite E in E'. by injection E'.
Qed.

(** X18: the session id is [session_] followed by the decimal of the start
    time in seconds, so two successful starts get the same id exactly when
    they happen within the same second. *)
Theorem session_ids_differ_by_second
    (a b a' b' : TranscriptionApp) (t t' : Z) (loaded loaded' : res whisper)
    (m m' : whisper) (o o' : obs) :
  is_recording a = false -> whisper_model a = Some m ->
  is_recording b = false -> whisper_model b = Some m' ->
  step a (ApiStart t loaded) = Some (a', o) ->
  step b (ApiStart t' loaded') = Some (b', o') ->
  session_id a' = Some (lit "session_" ++ str_of_int t)
  /\ (session_id a' = session_id b' <-> t = t').
Proof.
  intros Hr Hm Hr' Hm' Hs Hs'.
  rewrite (step_start_loaded a t loaded m Hr Hm) in Hs.
  rewrite (step_start_loaded b t' loaded' m' Hr' Hm') in Hs'.
  simplify_eq. unfold started. simpl_fields. split; [reflexivity|]. split.
  - intros H. injection H as H. by apply str_of_int_inj.
  - by intros ->.
Qed.

Lemma session_ids_differ_by_second_witness :
  session_id (started 1700000001 loaded_app)
  = Some (lit "session_" ++ str_of_int 1700000001)
  /\ (session_id (started 1700000001 loaded_app)
      = session_id (started 1700000002 loaded_app)
      <-> 1700000001 = 1700000002).
Proof.
  apply (session_ids_differ_by_second loaded_app loaded_app
           (started 1700000001 loaded_app) (started 1700000002 loaded_app)
           1700000001 1700000002 (Ok example_whisper) (Ok example_whisper)
           example_whisper example_whisper reply_started reply_started);
    reflexivity.
Defined.

(** ** What the threads leave alone *)

Lemma step_thread (a a' : TranscriptionApp) (l : label) (o : obs) :
  thread_step l ->
  step a l = Some (a', o) ->
  session_id a' = session_id a
  /\ whisper_model a' = whisper_model a
  /\ (is_recording a' = true -> is_recording a = true)
  /\ length (recording_threads a') = length (recording_threads a)
  /\ length (processing_threads a') = length (processing_threads a).
Proof.
  intros Hl Hs.
  assert (Hid : session_id a' = session_id a).
  { eapply step_keeps_session_id; [|exact Hs]. by destruct l. }
  destruct l as [t loaded| |i io|j now]; try done.
  - pose proof Hs as Hs'.
    apply step_capture in Hs' as (_ & _ & Hp & (Hw & _) & _).
    rewrite Hp. repeat split; auto.
    + unfold step in Hs.
      destruct (recording_threads a !! i) as [pc|]; [|discriminate]. cbn in Hs.
      destruct (record_step pc io a) as [[[pc' o'] a1]|] eqn:Hrs; [|discriminate].
      cbn in Hs. simplify_eq. unfold record_step, on_read_error in Hrs.
      repeat (case_match; try discriminate); simplify_eq; cbn; auto;
        intros; congruence.
    + unfold step in Hs.
      destruct (recording_threads a !! i) as [pc|]; [|discriminate]. cbn in Hs.
      destruct (record_step pc io a) as [[[pc' o'] a1]|] eqn:Hrs; [|discriminate].
      cbn in Hs. simplify_eq. cbn. rewrite length_insert.
      unfold record_step, on_read_error in Hrs.
      repeat (case_match; try discriminate); by simplify_eq.
  - pose proof Hs as Hs'.
    apply step_process in Hs' as (Hr & Hrt & _ & (Hw & _) & _).
    rewrite Hr, Hrt. repeat split; auto.
    unfold step in Hs.
    destruct (processing_threads a !! j) as [pc|]; [|discriminate]. cbn in Hs.
    destruct (process_step pc now a) as [[[pc' o'] a1]|] eqn:Hps; [|discriminate].
    cbn in Hs. simplify_eq. cbn. rewrite length_insert.
    destruct pc; cbn in Hps; try discriminate.
    + by simplify_eq.
    + case_match; by simplify_eq.
    + destruct (audio_queue a) as [|c q]; simplify_eq; [reflexivity|].
      cbn. pose proof (process_chunk_spec now c (set_audio_queue q a))
        as (_ & _ & (_ & _ & _ & _ & _ & _ & _ & _ & E)). by rewrite E.
Qed.

(** X19: the threads never start a session.  Along any schedule of thread
    steps alone, the session id and the model stay as they are, the number
    of threads does not change, and the session records at the end only if
    it did at the beginning. *)
Theorem threads_never_start_a_session
    (a a' : TranscriptionApp) (tr : list label) (os : list obs) :
  Forall thread_step tr ->
  run a tr = Some (a', os) ->
  session_id a' = session_id a
  /\ whisper_model a' = whisper_model a
  /\ (is_recording a' = true -> is_recording a = true)
  /\ length (recording_threads a') = length (recording_threads a)
  /\ length (processing_threads a') = length (processing_threads a).
Proof.
  revert a a' os. induction tr as [|l tr IH]; intros a a' os Hok Hrun.
  - cbn in Hrun. by simplify_eq.
  - cbn in Hrun. apply Forall_cons in Hok as [Hl Hok].
    destruct (step a l) as [[a1 o]|] eqn:Hs; [|discriminate]. cbn in Hrun.
    destruct (run a1 tr) as [[a2 os']|] eqn:Hr; [|discriminate]. cbn in Hrun.
    simplify_eq.
    destruct (step_thread a a1 l o Hl Hs) as (E1 & E2 & E3 & E4 & E5).
    destruct (IH a1 a' os' Hok Hr) as (F1 & F2 & F3 & F4 & F5).
    repeat split; try congruence. auto.
Qed.

Lemma threads_never_start_a_session_witness :
  session_id drained_app = session_id draining_app
  /\ whisper_model drained_app = whisper_model draining_app
  /\ (is_recording drained_app = true -> is_recording draining_app = true)
  /\ length (recording_threads drained_app)
     = length (recording_threads draining_app)
  /\ length (processing_threads drained_app)
     = length (processing_threads draining_app).
Proof.
  apply (threads_never_start_a_session draining_app drained_app
           (worker_labels 0 (map example_now [1; 2; 3])) drained_obs).
  - repeat constructor.
  - exact draining_app_run.
Defined.

(** ** Status snapshots *)




(** ** The queue *)

(** X21: the queue neither drops nor repeats a chunk.  Along every
    schedule, the chunks on the queue at the start followed by the chunks
    put are the chunks taken, in the order they were taken, followed by the
    chunks on the queue at the end. *)
Theorem queue_is_first_in_first_out
    (a a' : TranscriptionApp) (tr : list label) (os : list obs) :
  run a tr = Some (a', os) ->
  audio_queue a ++ puts os = map fst (gots os) ++ audio_queue a'.
Proof.
  revert a a' os. induction tr as [|l tr IH]; intros a a' os Hrun.
  - cbn in Hrun. simplify_eq. cbn. by rewrite app_nil_r.
  - cbn in Hrun.
    destruct (step a l) as [[a1 o]|] eqn:Hs; [|discriminate]. cbn in Hrun.
    destruct (run a1 tr) as [[a2 os']|] eqn:Hr; [|discriminate]. cbn in Hrun.
    simplify_eq. specialize (IH a1 a' os' Hr).
    destruct l as [t loaded| |i io|j now].
    + apply step_start in Hs as (Hq & _ & _ & _ & _ & (r & ->)).
      change (puts (Reply r :: os')) with (puts os').
      change (gots (Reply r :: os')) with (gots os'). by rewrite <- Hq.
    + apply step_stop in Hs as (_ & Hq & _ & _ & _ & _ & _ & _ & (r & ->)).
      change (puts (Reply r :: os')) with (puts os').
      change (gots (Reply r :: os')) with (gots os'). by rewrite <- Hq.
    + apply step_capture in Hs as (_ & _ & _ & _ & [(-> & Hq) | (c & -> & Hq)]).
      * change (puts (Tau :: os')) with (puts os').
        change (gots (Tau :: os')) with (gots os'). by rewrite <- Hq.
      * change (puts (Put c :: os')) with (c :: puts os').
        change (gots (Put c :: os')) with (gots os').
        rewrite Hq, <- app_assoc in IH. exact IH.
    + apply step_process in Hs
        as (_ & _ & _ & _ & [(-> & Hq & _) | (c & -> & Hq & _)]).
      * change (puts (Tau :: os')) with (puts os').
        change (gots (Tau :: os')) with (gots os'). by rewrite <- Hq.
      * change (puts (Got c now :: os')) with (puts os').
        change (gots (Got c now :: os')) with ((c, now) :: gots os').
        rewrite Hq. cbn [map fst List.app]. by rewrite <- IH.
Qed.

Lemma queue_is_first_in_first_out_witness :
  audio_queue (init_app false) ++ puts example_obs
  = map fst (gots example_obs) ++ audio_queue example_final.
Proof.
  apply (queue_is_first_in_first_out (init_app false) example_final
           example_session example_obs).
  exact example_session_run.
Defined.
